(** * Bay Area housing ranking: scoring, GeoJSON feed, rating store, scheduler

    A shallow embedding of the parts of the repository that carry the rating
    and scoring logic:

    - [Scoring]: [calculateZipcodeScores] of the debug script and the
      replacement that [applyFixes] installs (the "fix" path);
    - [GeoJson]: the [/housing_api/zipcodes/geojson] handler of the API server;
    - [RatingStore]: the [zipcode_ratings] table of [database-schema.sql] with
      the types of its columns, its keys and its unique index on
      [(zip, rating_type)];
    - [Scheduler]: the [data_sources] table and [force-update.sh].

    JavaScript numbers are IEEE 754 binary64 values, so they are embedded as
    Rocq's primitive floats: every arithmetic step below rounds exactly as
    the script does. *)

From Stdlib Require Import ZArith String Ascii List Floats Permutation.
From stdpp Require Import gmap strings list fin_maps.
Import ListNotations.

(* Decimal literals such as 0.1 stand for the nearest binary64 value, as
   they do in JavaScript. *)
#[local] Set Warnings "-inexact-float".

(** ** JavaScript values and [parseFloat] *)

Module JS.

(** The values a property read can yield.  The first five are the primitive
    values a GeoJSON property can hold after [JSON.parse], [JUndefined]
    being what reading an absent property yields.  The last two are what a
    read finds further up the prototype chain: a built-in function, known
    by its name, and an object that prints as [[object Object]], such as
    [Object.prototype] itself. *)
Inductive Value :=
| JUndefined
| JNull
| JBool (b : bool)
| JNum (f : float)
| JStr (s : string)
| JFunction (name : string)
| JObject.

(** [v === undefined || v === null] *)
Definition isNullish (v : Value) : bool :=
  match v with
  | JUndefined | JNull => true
  | _ => false
  end.

(** ToBoolean *)
Definition truthy (v : Value) : bool :=
  match v with
  | JUndefined | JNull => false
  | JBool b => b
  | JNum f => negb (PrimFloat.is_zero f || PrimFloat.is_nan f)
  | JStr s => negb (String.eqb s "")
  | JFunction _ | JObject => true
  end.

(** [a || b] *)
Definition or (a b : Value) : Value := if truthy a then a else b.

(** *** Decimal literals

    [decimalToFloat neg m e] is the binary64 value nearest to
    [(-1)^neg * m * 10^e] (ties to even), for [0 <= m].  Exponents far
    outside the binary64 range are cut short before any power of ten is
    built: above [10^311] the result is infinite, and a quotient below
    [2^-1080] rounds to zero. *)
Definition decimalToFloat (neg : bool) (m e : Z) : float :=
  match m with
  | Zpos _ =>
      if (0 <=? e)%Z then
        if (310 <? e)%Z then (if neg then neg_infinity else infinity)
        else match (m * 10 ^ e)%Z with
             | Zpos q => SF2Prim (binary_round prec emax neg q 0)
             | _ => nan
             end
      else
        let k := (- e)%Z in
        if (Z.log2 m + 1 - 3 * k <? -1080)%Z
        then (if neg then neg_zero else zero)
        else
          let d := (10 ^ k)%Z in
          let s := Z.max 0 (64 + Z.log2 d - Z.log2 m)%Z in
          let '(q, r) := Z.div_eucl (Z.shiftl m s) d in
          SF2Prim (binary_round_aux prec emax neg q (- s)%Z (new_location d r))
  | _ => if neg then neg_zero else zero
  end.

(** StrWhiteSpaceChar, over 8-bit code units: TAB, LF, VT, FF, CR, SP, NBSP. *)
Definition isWhiteSpace (c : ascii) : bool :=
  let n := nat_of_ascii c in
  ((9 <=? n)%nat && (n <=? 13)%nat) || (n =? 32)%nat || (n =? 160)%nat.

Fixpoint trimStart (s : string) : string :=
  match s with
  | String c r => if isWhiteSpace c then trimStart r else s
  | EmptyString => s
  end.

Definition digitOf (c : ascii) : option Z :=
  let n := nat_of_ascii c in
  if ((48 <=? n)%nat && (n <=? 57)%nat)%bool then Some (Z.of_nat (n - 48)) else None.

(** Reads the longest run of decimal digits at the head of [s], continuing
    the number [acc]; returns the number, how many digits were read, and
    the rest of the string. *)
Fixpoint readDigits (acc : Z) (count : Z) (s : string) : Z * Z * string :=
  match s with
  | String c r =>
      match digitOf c with
      | Some d => readDigits (acc * 10 + d)%Z (count + 1)%Z r
      | None => (acc, count, s)
      end
  | EmptyString => (acc, count, s)
  end.

(** ExponentPart, when one is present at the head of [s]: [e] or [E], an
    optional sign, and at least one digit.  Otherwise the exponent is 0
    (the literal ends before the [e]). *)
Definition readExponent (s : string) : Z :=
  match s with
  | String c r =>
      if (Ascii.eqb c "e" || Ascii.eqb c "E")%bool then
        let '(neg, r') :=
          match r with
          | String "-" t => (true, t)
          | String "+" t => (false, t)
          | _ => (false, r)
          end in
        let '(x, n, _) := readDigits 0 0 r' in
        if (0 <? n)%Z then (if neg then (- x)%Z else x) else 0%Z
      else 0%Z
  | EmptyString => 0%Z
  end.

(** The longest prefix of [s] that is a StrUnsignedDecimalLiteral, as a
    float of sign [neg]; [nan] when no prefix is one. *)
Definition readUnsigned (neg : bool) (s : string) : float :=
  if String.prefix "Infinity" s then (if neg then neg_infinity else infinity)
  else
    let '(ip, ni, r1) := readDigits 0 0 s in
    match r1 with
    | String "." r2 =>
        let '(m, nf, r3) := readDigits ip 0 r2 in
        if ((0 <? ni) || (0 <? nf))%Z
        then decimalToFloat neg m (readExponent r3 - nf)%Z
        else nan
    | _ =>
        if (0 <? ni)%Z then decimalToFloat neg ip (readExponent r1) else nan
    end.

Definition parseFloatString (s : string) : float :=
  match trimStart s with
  | String "-" r => readUnsigned true r
  | String "+" r => readUnsigned false r
  | t => readUnsigned false t
  end.

(** [parseFloat(v)] is [parseFloatString (ToString v)].  The string of a
    number reads back as the same number, except that both zeros print as
    ["0"]; the strings of [undefined], [null], [true], [false] and [NaN]
    start with no digit, and neither does the text of a function (it starts
    with the word [function]) or of an object ([[object Object]]). *)
Definition parseFloat (v : Value) : float :=
  match v with
  | JNum f => if PrimFloat.is_zero f then zero else f
  | JStr s => parseFloatString s
  | JUndefined | JNull | JBool _ | JFunction _ | JObject => nan
  end.

(** What every object made by [JSON.parse] or by an object literal inherits
    from [Object.prototype]: eleven built-in functions, of which
    [constructor] is the function [Object], and the accessor [__proto__],
    which yields [Object.prototype] itself. *)
Definition objectPrototype (key : string) : option Value :=
  if String.eqb key "constructor" then Some (JFunction "Object")
  else if String.eqb key "__proto__" then Some JObject
  else if existsb (String.eqb key)
            ["hasOwnProperty"; "isPrototypeOf"; "propertyIsEnumerable";
             "toLocaleString"; "toString"; "valueOf";
             "__defineGetter__"; "__defineSetter__";
             "__lookupGetter__"; "__lookupSetter__"]%string
       then Some (JFunction key)
  else None.

End JS.

(** ** The scoring script *)

Module Scoring.
Import JS.

(** One entry of [state.criteria]. *)
Record Criterion := {
  id : string;
  weight : float;
  invert : bool;
  enabled : bool
}.

(** The own properties of [feature.properties].  [ZIP] and [ZCTA5CE10] are
    text when present (the API fills [ZIP] from the TEXT column
    [zipcodes.zip]); [None] is an absent or null property.  Every other own
    property lives in [ratings]. *)
Record Properties := {
  ZIP : option string;
  ZCTA5CE10 : option string;
  ratings : gmap string Value
}.

Record Feature := { properties : option Properties }.

(** [state], as far as the two scoring functions read it. *)
Record State := {
  criteria : list Criterion;
  zipcodeData : option (option (list Feature))
    (* [state.zipcodeData], then [state.zipcodeData.features] *)
}.

Definition textValue (o : option string) : Value :=
  match o with
  | Some s => JStr s
  | None => JUndefined
  end.

(** [feature.properties[key]]: the own property of that name, and where
    there is none the member that [feature.properties], a plain object,
    inherits from [Object.prototype]. *)
Definition getProperty (p : Properties) (key : string) : Value :=
  if String.eqb key "ZIP" then textValue (ZIP p)
  else if String.eqb key "ZCTA5CE10" then textValue (ZCTA5CE10 p)
  else match ratings p !! key with
       | Some v => v
       | None => default JUndefined (objectPrototype key)
       end.

(** [feature.properties.ZIP || feature.properties.ZCTA5CE10], and [None]
    when the result is falsy ([!zipcode]). *)
Definition zipcodeOf (p : Properties) : option string :=
  match or (textValue (ZIP p)) (textValue (ZCTA5CE10 p)) with
  | JStr s => if truthy (JStr s) then Some s else None
  | _ => None
  end.

(** An entry of [criteriaScores]. *)
Inductive CriterionScore :=
| Missing
    (* { value: 'missing', score: 'N/A', used: false } *)
| Scored (originalValue : Value) (inverted : bool)
         (score weight weightedScore : float).
    (* { originalValue, inverted, score, weight, weightedScore, used: true } *)


Record ZipcodeScore := {
  finalScore : float;
  criteriaScores : gmap string CriterionScore;
  totalCriteria : nat;
  usedCriteria : nat;
  error : option string
}.

(** The locals of the [features.forEach] callback that the inner loop
    updates. *)
Record Totals := {
  totalScore : float;
  totalWeight : float;
  usedCount : nat;
  entries : gmap string CriterionScore
}.

Definition noTotals : Totals :=
  {| totalScore := 0; totalWeight := 0; usedCount := 0; entries := ∅ |}.

(** [score] after the optional inversion (lines 242-248). *)
Definition criterionScore (c : Criterion) (value : Value) : float :=
  let score := parseFloat value in
  if invert c then (10 - score)%float else score.

(** The [activeCriteria.forEach] callback (lines 229-262). *)
Definition criterionStep (p : Properties) (t : Totals) (c : Criterion) : Totals :=
  let value := getProperty p (id c) in
  if isNullish value then
    {| totalScore := totalScore t;
       totalWeight := totalWeight t;
       usedCount := usedCount t;
       entries := <[id c := Missing]> (entries t) |}
  else
    let score := criterionScore c value in
    {| totalScore := (totalScore t + score * weight c)%float;
       totalWeight := (totalWeight t + weight c)%float;
       usedCount := S (usedCount t);
       entries := <[id c := Scored value (invert c) score (weight c)
                                   (score * weight c)%float]> (entries t) |}.

(** The result stored for a feature that has properties and a zipcode
    (lines 222-280). *)
Definition scoreFeature (activeCriteria : list Criterion) (p : Properties)
  : ZipcodeScore :=
  let t := fold_left (criterionStep p) activeCriteria noTotals in
  if (0 <? totalWeight t)%float then
    {| finalScore := (totalScore t / totalWeight t)%float;
       criteriaScores := entries t;
       totalCriteria := length activeCriteria;
       usedCriteria := usedCount t;
       error := None |}
  else
    {| finalScore := 0;
       criteriaScores := entries t;
       totalCriteria := length activeCriteria;
       usedCriteria := 0;
       error := Some "No criteria with values found"%string |}.

(** The [features.forEach] callback (lines 210-281). *)
Definition featureStep (activeCriteria : list Criterion)
    (scores : gmap string ZipcodeScore) (feature : Feature)
  : gmap string ZipcodeScore :=
  match properties feature with
  | None => scores
  | Some p =>
      match zipcodeOf p with
      | None => scores
      | Some zipcode => <[zipcode := scoreFeature activeCriteria p]> scores
      end
  end.

(** [calculateZipcodeScores(features)] of the debug script; [None] is a
    null or undefined argument. *)
Definition calculateZipcodeScores (state : State) (features : option (list Feature))
  : gmap string ZipcodeScore :=
  match features with
  | None | Some [] => ∅
  | Some fs =>
      let activeCriteria := filter (fun c => enabled c = true) (criteria state) in
      match activeCriteria with
      | [] => ∅
      | _ => fold_left (featureStep activeCriteria) fs ∅
      end
  end.

(** *** The replacement installed by [applyFixes] (lines 343-412) *)

Record FixTotals := {
  fixScore : float;
  fixWeight : float;
  fixUsed : nat
}.

(** The [activeCriteria.forEach] callback of the replacement (lines 379-400). *)
Definition fixCriterionStep (p : Properties) (t : FixTotals) (c : Criterion)
  : FixTotals :=
  let value := parseFloat (getProperty p (id c)) in
  let value := if PrimFloat.is_nan value then 5%float else value in
  let score := if invert c then (10 - value)%float else value in
  {| fixScore := (fixScore t + score * weight c)%float;
     fixWeight := (fixWeight t + weight c)%float;
     fixUsed := S (fixUsed t) |}.

Definition fixScoreFeature (activeCriteria : list Criterion) (p : Properties)
  : float :=
  let t := fold_left (fixCriterionStep p) activeCriteria
             {| fixScore := 0; fixWeight := 0; fixUsed := 0 |} in
  if (0 <? fixWeight t)%float then (fixScore t / fixWeight t)%float else 5%float.

Definition fixFeatureStep (activeCriteria : list Criterion)
    (scores : gmap string float) (feature : Feature) : gmap string float :=
  match properties feature with
  | None => scores
  | Some p =>
      match zipcodeOf p with
      | None => scores
      | Some zipcode => <[zipcode := fixScoreFeature activeCriteria p]> scores
      end
  end.

(** [window.calculateZipcodeScores()] after [applyFixes]: it reads the
    features from [state.zipcodeData.features]. *)
Definition fixedCalculateZipcodeScores (state : State) : gmap string float :=
  match zipcodeData state with
  | None | Some None => ∅
  | Some (Some fs) =>
      let activeCriteria := filter (fun c => enabled c = true) (criteria state) in
      match activeCriteria with
      | [] => ∅
      | _ => fold_left (fixFeatureStep activeCriteria) fs ∅
      end
  end.

End Scoring.

(** *** The weighted average, as the specification words it *)

Module ScoringSpec.
Import JS Scoring.

(** The criterion has an observation for the unit: reading the unit's
    properties under the criterion's id yields a value, that is, neither
    [undefined] nor [null]. *)
Definition hasObservation (p : Properties) (c : Criterion) : Prop :=
  isNullish (getProperty p (id c)) = false.

#[export] Instance hasObservation_dec p c : Decision (hasObservation p c).
Proof. unfold hasObservation. apply _. Defined.

(** The score a criterion contributes: the observed value, or
    [SCALE_MAX - value] for an inverted criterion. *)
Definition SCALE_MAX : float := 10.

Definition contributedScore (p : Properties) (c : Criterion) : float :=
  let value := parseFloat (getProperty p (id c)) in
  if invert c then (SCALE_MAX - value)%float else value.

(** Σ (contributed_score_i × weight_i), summed in list order from 0. *)
Definition weightedSum (p : Properties) (cs : list Criterion) : float :=
  fold_left (fun acc c => (acc + contributedScore p c * weight c)%float) cs 0%float.

(** Σ weight_i, summed in list order from 0. *)
Definition weightSum (cs : list Criterion) : float :=
  fold_left (fun acc c => (acc + weight c)%float) cs 0%float.

(** The value reported when no score can be computed. *)
Definition sentinel : float := 0.

(** Σ(contributed_score_i × weight_i) / Σ(weight_i) over [cs], and the
    sentinel when the weight sum is not positive. *)
Definition weightedAverage (p : Properties) (cs : list Criterion) : float :=
  if (0 <? weightSum cs)%float
  then (weightedSum p cs / weightSum cs)%float
  else sentinel.

(** The features were read from one snapshot of the store: two features
    that carry the same zipcode carry the same properties. *)
Definition fromOneSnapshot (fs : list Feature) : Prop :=
  forall (p q : Properties) (z : string),
    In {| properties := Some p |} fs -> In {| properties := Some q |} fs ->
    zipcodeOf p = Some z -> zipcodeOf q = Some z -> p = q.

End ScoringSpec.

(** ** The GeoJSON endpoint of the API server *)

Module GeoJson.
Import JS.

(** A row of [SELECT z.zip, z.name, z.county, z.state,
    ST_AsGeoJSON(z.geometry) as geom FROM zipcodes z].  [zip] is the
    primary key, so it is never NULL; [geom] is the JSON text that the
    handler passes through [JSON.parse]. *)
Record ZipcodeRow := {
  zip : string;
  name : option string;
  county : option string;
  state : option string;
  geom : option string
}.

(** A row of [SELECT zip, rating_type, rating_value, confidence FROM
    zipcode_ratings].  [rating_value] and [confidence] are REAL columns,
    which the driver hands over as numbers, NULL as [null]. *)
Record RatingRow := {
  r_zip : option string;
  rating_type : string;
  rating_value : option float;
  confidence : option float
}.

Definition sqlValue (o : option float) : Value :=
  match o with
  | Some f => JNum f
  | None => JNull
  end.

(** A property key made from a nullable text column. *)
Definition zipKey (o : option string) : string :=
  match o with
  | Some z => z
  | None => "null"
  end.

(** The [ratingsResult.rows.forEach] callback (lines 119-124). *)
Definition organize (byZip : gmap string (gmap string Value)) (row : RatingRow)
  : gmap string (gmap string Value) :=
  let k := zipKey (r_zip row) in
  let inner := default ∅ (byZip !! k) in
  <[k := <[rating_type row := sqlValue (rating_value row)]> inner]> byZip.

Definition ratingsByZipcode (rows : list RatingRow) : gmap string (gmap string Value) :=
  fold_left organize rows ∅.

Record FeatureProperties := {
  ZIP : string;
  NAME : option string;
  p_county : option string;
  p_state : option string;
  schoolRating : Value;
  crimeRate : Value;
  nicheRating : Value;
  commuteTime : Value;
  neighborhoodRating : Value
}.

Record GeoFeature := {
  properties : FeatureProperties;
  geometry : option string
}.

(** [ratings.kind || null] *)
Definition advertised (ratings : gmap string Value) (kind : string) : Value :=
  or (default JUndefined (ratings !! kind)) JNull.

(** The [zipcodesResult.rows.map] callback (lines 129-149). *)
Definition feature (byZip : gmap string (gmap string Value)) (row : ZipcodeRow)
  : GeoFeature :=
  let ratings := default ∅ (byZip !! zip row) in
  {| properties :=
       {| ZIP := zip row;
          NAME := name row;
          p_county := county row;
          p_state := state row;
          schoolRating := advertised ratings "schoolRating";
          crimeRate := advertised ratings "crimeRate";
          nicheRating := advertised ratings "nicheRating";
          commuteTime := advertised ratings "commuteTime";
          neighborhoodRating := advertised ratings "neighborhoodRating" |};
     geometry := geom row |}.

Inductive Response :=
| NotFound                               (* status 404 *)
| FeatureCollection (features : list GeoFeature).

(** [GET /housing_api/zipcodes/geojson], given the results of its two
    queries. *)
Definition geojson (zipcodes : list ZipcodeRow) (ratings : list RatingRow)
  : Response :=
  match zipcodes with
  | [] => NotFound
  | _ => FeatureCollection (map (feature (ratingsByZipcode ratings)) zipcodes)
  end.

(** The property of a feature that carries the rating kind [kind]. *)
Definition ratingProperty (kind : string) (p : FeatureProperties) : option Value :=
  if String.eqb kind "schoolRating" then Some (schoolRating p)
  else if String.eqb kind "crimeRate" then Some (crimeRate p)
  else if String.eqb kind "nicheRating" then Some (nicheRating p)
  else if String.eqb kind "commuteTime" then Some (commuteTime p)
  else if String.eqb kind "neighborhoodRating" then Some (neighborhoodRating p)
  else None.

End GeoJson.

(** ** The rating store: table [zipcode_ratings] *)

Module RatingStore.

(** *** Column types *)

(** [REAL] is IEEE single precision.  [real f] is the number a [REAL]
    column keeps when [f] is written to it: the single-precision number
    nearest to [f], ties to even.  Zeros, infinities and NaN are kept as
    they are.  A finite number too large for single precision, or a nonzero
    one that rounds to zero, is refused by the database (value out of
    range): [None]. *)
Definition real (f : float) : option float :=
  match Prim2SF f with
  | S754_finite s m e =>
      match binary_round 24 128 s m e with
      | S754_finite s' m' e' => Some (SF2Prim (S754_finite s' m' e'))
      | _ => None
      end
  | _ => Some f
  end.

(** A nullable [REAL] column: NULL stays NULL. *)
Definition realColumn (o : option float) : option (option float) :=
  match o with
  | Some f => Some <$> real f
  | None => Some None
  end.

(** A number a [REAL] column can hold: the rounding of some number. *)
Definition singlePrecision (x : float) : Prop := exists w, real w = Some x.

(** [INTEGER], the type behind [SERIAL]. *)
Definition integer (i : Z) : bool :=
  ((-2147483648 <=? i) && (i <=? 2147483647))%Z.

(** *** The table *)

(** A row of [zipcode_ratings] (database-schema.sql, lines 23-32), and also
    the values an [INSERT] supplies for one.  Only [id] and [rating_type]
    are NOT NULL.  In the table [id] is an [INTEGER] and the two [REAL]
    columns hold single-precision numbers ([columnTypes] below): every
    write passes through [stored]. *)
Record Row := {
  id : Z;                         (* SERIAL PRIMARY KEY *)
  zip : option string;            (* TEXT REFERENCES zipcodes(zip) *)
  rating_type : string;           (* TEXT NOT NULL *)
  rating_value : option float;    (* REAL *)
  confidence : option float;      (* REAL *)
  source : option string;         (* TEXT *)
  source_url : option string;     (* TEXT *)
  last_updated : option Z         (* TIMESTAMP DEFAULT CURRENT_TIMESTAMP *)
}.

(** The row as the table keeps it: the two [REAL] columns rounded, and no
    row at all when one of them is out of range. *)
Definition stored (r : Row) : option Row :=
  match realColumn (rating_value r), realColumn (confidence r) with
  | Some value, Some conf =>
      Some {| id := id r;
              zip := zip r;
              rating_type := rating_type r;
              rating_value := value;
              confidence := conf;
              source := source r;
              source_url := source_url r;
              last_updated := last_updated r |}
  | _, _ => None
  end.

(** The entry of a row in the index on [(zip, rating_type)].  A row whose
    [zip] is NULL never conflicts with another row. *)
Definition indexKey (r : Row) : option (string * string) :=
  match zip r with
  | Some z => Some (z, rating_type r)
  | None => None
  end.

(** [CREATE UNIQUE INDEX idx_zipcode_ratings_zip_type ON
    zipcode_ratings(zip, rating_type)] (line 174): what the index admits. *)
Definition idx_zipcode_ratings_zip_type (rows : list Row) : Prop :=
  NoDup (omap indexKey rows).

(** [id SERIAL PRIMARY KEY]: no two rows share an id. *)
Definition primaryKey (rows : list Row) : Prop := NoDup (id <$> rows).

(** [zip TEXT REFERENCES zipcodes(zip)]: a zip that is not NULL is the key
    of a row of [zipcodes]; [zipcodes] lists those keys. *)
Definition references (zipcodes : list string) (r : Row) : Prop :=
  match zip r with
  | Some z => z ∈ zipcodes
  | None => True
  end.

#[export] Instance references_dec zipcodes r : Decision (references zipcodes r).
Proof. unfold references. destruct (zip r); apply _. Defined.

(** The values of a row fit the types of their columns. *)
Definition columnTypes (r : Row) : Prop :=
  integer (id r) = true
  /\ (forall x, rating_value r = Some x -> singlePrecision x)
  /\ (forall x, confidence r = Some x -> singlePrecision x).

Definition hasKey (unitKey ratingKind : string) (r : Row) : Prop :=
  indexKey r = Some (unitKey, ratingKind).

#[export] Instance hasKey_dec u k r : Decision (hasKey u k r).
Proof. unfold hasKey. apply _. Defined.

(** What the unique index alone decides about a new row: it refuses a row
    whose entry is already present and lets every other row be appended.
    The other constraints of the table can only refuse more. *)
Definition insertUnderIndex (r : Row) (rows : list Row) : option (list Row) :=
  match indexKey r with
  | Some key => if decide (key ∈ omap indexKey rows) then None else Some (rows ++ [r])
  | None => Some (rows ++ [r])
  end.

(** [INSERT INTO zipcode_ratings ...] with the values of [r], into the
    table [rows] beside a table [zipcodes] with the given keys.  The
    database refuses the row when its id is no [INTEGER] or is taken, when
    its zip is not in [zipcodes], when a [REAL] value is out of range, or
    when the unique index already holds its pair; otherwise it appends the
    row with the [REAL] values rounded. *)
Definition insertRow (zipcodes : list string) (r : Row) (rows : list Row)
  : option (list Row) :=
  if integer (id r)
     && bool_decide (id r ∉ id <$> rows)
     && bool_decide (references zipcodes r)
  then stored r ≫= fun r' => insertUnderIndex r' rows
  else None.

(** The rows holding an observation for the pair. *)
Definition observations (rows : list Row) (unitKey ratingKind : string) : list Row :=
  filter (hasKey unitKey ratingKind) rows.

(** The database as far as the ratings go: the keys of [zipcodes], the rows
    of [zipcode_ratings], and the sequence behind [id SERIAL]. *)
Record Store := {
  zipcodes : list string;
  rows : list Row;
  next_id : Z
}.


(** Modelled from the spec: an observation as the store hands it out (§3),
    without the pair that keys it.  [value] and [obs_confidence] are the
    numbers the [REAL] columns hold. *)
Record Observation := {
  value : float;
  obs_confidence : float;
  obs_source : string;
  lastUpdated : Z
}.

(** Modelled from the spec: a write fails with [ValidationError] (§7); the
    database refusing the row is the other way it can fail. *)
Inductive Error := ValidationError | DatabaseError.

(** Modelled from the spec: the write path of the store ([upsert]) belongs
    to the data collectors, which are not among the sources.  §4.1: "Fails
    with ValidationError if confidence is outside [0,1] or value is not
    representable as a number". *)
Definition valid (value confidence : float) : bool :=
  (0 <=? confidence)%float && (confidence <=? 1)%float
  && negb (PrimFloat.is_nan value).

(** Modelled from the spec: the row of an existing observation after it has
    been replaced by the numbers [value] and [confidence], already rounded
    to the columns. *)
Definition written (value confidence : float) (src : string) (now : Z) (r : Row) : Row :=
  {| id := id r;
     zip := zip r;
     rating_type := rating_type r;
     rating_value := Some value;
     confidence := Some confidence;
     source := Some src;
     source_url := source_url r;
     last_updated := Some now |}.

(** Modelled from the spec: the values of a first observation for a pair. *)
Definition fresh (key : Z) (unitKey ratingKind : string) (value confidence : float)
    (src : string) (now : Z) : Row :=
  {| id := key;
     zip := Some unitKey;
     rating_type := ratingKind;
     rating_value := Some value;
     confidence := Some confidence;
     source := Some src;
     source_url := None;
     last_updated := Some now |}.

(** Modelled from the spec: [upsert(unitKey, ratingKind, value, confidence,
    source)], "replaces any existing observation for the (unitKey,
    ratingKind) pair" (an upsert on the composite key); [now] is the clock
    reading that becomes [lastUpdated].  A number the [REAL] columns cannot
    hold is not representable and fails the validation; a first observation
    is inserted under the next id of the sequence, and the database may
    refuse it. *)
Definition upsert (unitKey ratingKind : string) (value confidence : float)
    (src : string) (now : Z) (s : Store) : Store + Error :=
  if valid value confidence then
    match real value, real confidence with
    | Some v, Some c =>
        match observations (rows s) unitKey ratingKind with
        | [] =>
            match insertRow (zipcodes s)
                    (fresh (next_id s) unitKey ratingKind value confidence src now)
                    (rows s) with
            | Some rows' =>
                inl {| zipcodes := zipcodes s;
                       rows := rows';
                       next_id := (next_id s + 1)%Z |}
            | None => inr DatabaseError
            end
        | _ =>
            inl {| zipcodes := zipcodes s;
                   rows := map (fun r => if decide (hasKey unitKey ratingKind r)
                                         then written v c src now r
                                         else r) (rows s);
                   next_id := next_id s |}
        end
    | _, _ => inr ValidationError
    end
  else inr ValidationError.




End RatingStore.

(** ** The source scheduler: table [data_sources] and [force-update.sh] *)

Module Scheduler.

(** A row of [data_sources] (database-schema.sql, lines 35-42), without its
    primary key [source_name], which keys the table below.  Timestamps and
    the interval are counted in seconds. *)
Record DataSource := {
  last_updated : option Z;
  next_update : option Z;
  update_frequency : option Z;
  url : option string;
  notes : option string
}.

(** Modelled from the spec: what the processor knows of a registered source
    independently of the table (the processor is not among the sources). *)
Record SourceConfig := {
  frequency : Z;
  source_url : option string
}.

Record State := {
  registry : gmap string SourceConfig;
  data_sources : gmap string DataSource
}.

(** [force-update.sh]: [DELETE FROM data_sources;].  The restart of the
    processor that follows makes it run its next tick. *)
Definition forceAll (s : State) : State :=
  {| registry := registry s; data_sources := ∅ |}.

(** Modelled from the spec (§4.2): a source is due when it has never run or
    its [nextUpdate] is null or not after [now]. *)
Definition isDue (now : Z) (table : gmap string DataSource) (name : string) : bool :=
  match table !! name with
  | None => true
  | Some r =>
      match next_update r with
      | None => true
      | Some t => (t <=? now)%Z
      end
  end.

(** Modelled from the spec: [dueSources(now)], a pure query. *)
Definition dueSources (now : Z) (s : State) : list string :=
  filter (fun name => isDue now (data_sources s) name = true)
    (fst <$> map_to_list (registry s)).

(** Modelled from the spec: the record of a source after a run.  Success
    sets [lastUpdated = now] and [nextUpdate = now + updateFrequency];
    failure leaves the table as it was, so the source stays due. *)
Definition recordRun (now : Z) (ingest : string -> bool) (s : State)
    (table : gmap string DataSource) (name : string) : gmap string DataSource :=
  match registry s !! name with
  | Some cfg =>
      if ingest name then
        <[name := {| last_updated := Some now;
                     next_update := Some (now + frequency cfg)%Z;
                     update_frequency := Some (frequency cfg);
                     url := source_url cfg;
                     notes := table !! name ≫= notes |}]> table
      else table
  | None => table
  end.

(** Modelled from the spec: [tick(now)] runs every due source ([ingest]
    tells which runs succeed) and returns the names it ran together with
    the new state. *)
Definition tick (now : Z) (ingest : string -> bool) (s : State) : list string * State :=
  let due := dueSources now s in
  (due, {| registry := registry s;
           data_sources := fold_left (recordRun now ingest s) due (data_sources s) |}).

End Scheduler.

(** ** Feature validation in the debug script *)

Module Validation.
Import JS Scoring.

(** [feature.geometry], as far as [validateFeature] looks at it: whether
    [coordinates] is there and [Array.isArray] accepts it. *)
Record Geometry := { coordinatesIsArray : bool }.

(** A feature as [validateFeature] receives it. *)
Record RawFeature := {
  geometry : option Geometry;
  properties : option Properties
}.

Definition expectedRatings : list string :=
  ["schoolRating"; "nicheRating"; "crimeRate"; "commuteTime"]%string.

(** [expectedRatings.filter(rating => feature.properties[rating] === undefined)] *)
Definition missingRatings (p : Properties) : list string :=
  List.filter
    (fun rating => match getProperty p rating with JUndefined => true | _ => false end)
    expectedRatings.

(** The issues found in [feature.properties] (lines 167-183). *)
Definition propertyIssues (p : Properties) : list string :=
  (match zipcodeOf p with
   | None => ["Missing ZIP/ZCTA5CE10 property"%string]
   | Some _ => []
   end)
  ++ (match missingRatings p with
      | [] => []
      | missing =>
          [("Missing rating properties: " ++ String.concat ", " missing)%string]
      end).

(** [validateFeature(feature)] (lines 152-190): the [issues] array it logs;
    the empty list stands for the message that the feature is valid. *)
Definition validateFeature (feature : option RawFeature) : list string :=
  match feature with
  | None => ["Feature is null or undefined"%string]
  | Some f =>
      (match geometry f with
       | None => ["Missing geometry"%string]
       | Some g =>
           if coordinatesIsArray g then [] else ["Invalid geometry coordinates"%string]
       end)
      ++ (match properties f with
          | None => ["Missing properties"%string]
          | Some p => propertyIssues p
          end)
  end.

End Validation.

(** ** From the API response to the script *)

Module Client.
Import JS.

(** A property value after [res.json] on the server and [response.json()]
    in the browser: JSON has no NaN and no infinities (they are written as
    [null]) and writes both zeros as [0]; every other number, and text,
    comes back as it was.  A property holding a function is left out, as
    one holding [undefined] is. *)
Definition jsonValue (v : Value) : Value :=
  match v with
  | JNum f =>
      if PrimFloat.is_finite f then JNum (if PrimFloat.is_zero f then zero else f)
      else JNull
  | JFunction _ => JUndefined
  | _ => v
  end.

Definition jsonText (o : option string) : Value :=
  match o with
  | Some s => JStr s
  | None => JNull
  end.

(** [feature.properties] of a feature of the response, as the script sees
    it. *)
Definition receivedProperties (fp : GeoJson.FeatureProperties) : Scoring.Properties :=
  {| Scoring.ZIP := Some (GeoJson.ZIP fp);
     Scoring.ZCTA5CE10 := None;
     Scoring.ratings :=
       list_to_map
         [("NAME", jsonText (GeoJson.NAME fp));
          ("county", jsonText (GeoJson.p_county fp));
          ("state", jsonText (GeoJson.p_state fp));
          ("schoolRating", jsonValue (GeoJson.schoolRating fp));
          ("crimeRate", jsonValue (GeoJson.crimeRate fp));
          ("nicheRating", jsonValue (GeoJson.nicheRating fp));
          ("commuteTime", jsonValue (GeoJson.commuteTime fp));
          ("neighborhoodRating", jsonValue (GeoJson.neighborhoodRating fp))]%string |}.

Definition received (f : GeoJson.GeoFeature) : Scoring.Feature :=
  {| Scoring.properties := Some (receivedProperties (GeoJson.properties f)) |}.

(** The rating the database holds for a pair when the handler runs its
    query: the value of the last row the query returns for it. *)
Definition storedValue (rows : list GeoJson.RatingRow) (zipcode kind : string)
  : option (option float) :=
  GeoJson.rating_value <$>
    last (filter (fun r => GeoJson.zipKey (GeoJson.r_zip r) = zipcode
                           /\ GeoJson.rating_type r = kind) rows).

End Client.

(** ** The last-update timestamp of the API server *)

Module Timestamps.
Import JS.

(** What [JSON.parse] makes of the text of [data/last_update.json]: it
    throws, or yields [null] (whose member access throws), or yields a value
    whose [lastUpdate] member is given ([JUndefined] when there is none). *)
Inductive FileContent :=
| Unparseable
| ParsesToNull
| ParsesTo (lastUpdate : Value).

(** The directory [data] next to the server: absent, without the file, or
    with it. *)
Inductive DataDir :=
| NoDirectory
| NoFile
| File (content : FileContent).

(** The text [JSON.stringify({ lastUpdate: timestamp })] when read back. *)
Definition written (timestamp : string) : DataDir :=
  File (ParsesTo (JStr timestamp)).

Inductive UpdateResponse :=
| Status500                         (* the error answers of the handler *)
| Success (lastUpdate : Value)      (* status: 'success' *)
| Uncaught.                         (* an exception leaves the callback *)

End Timestamps.

(** [src/api/server.js] *)
Module ApiServer.
Import JS Timestamps.

(** [saveUpdateTimestamp()] (lines 37-43); [now] is what
    [getCurrentTimestamp()] returns.  [fs.writeFileSync] throws when the
    directory is missing: [None]. *)
Definition saveUpdateTimestamp (now : string) (d : DataDir) : option (Value * DataDir) :=
  match d with
  | NoDirectory => None
  | _ => Some (JStr now, written now)
  end.

(** [getLastUpdateTimestamp()] (lines 46-61).  [later] is the clock reading
    of the [catch] block when it runs after [saveUpdateTimestamp] has
    already read [now]. *)
Definition getLastUpdateTimestamp (now later : string) (d : DataDir) : Value * DataDir :=
  match d with
  | File (ParsesTo lastUpdate) => (lastUpdate, d)
  | File Unparseable | File ParsesToNull => (JStr now, d)
  | NoFile | NoDirectory =>
      match saveUpdateTimestamp now d with
      | Some saved => saved
      | None => (JStr later, d)
      end
  end.

(** [POST /housing_api/update-data] (lines 189-211); [failed] tells whether
    [exec] reports an error for the update script. *)
Definition updateData (failed : bool) (now : string) (d : DataDir)
  : UpdateResponse * DataDir :=
  if failed then (Status500, d)
  else match saveUpdateTimestamp now d with
       | Some (timestamp, d') => (Success timestamp, d')
       | None => (Uncaught, d)
       end.

End ApiServer.

(** The later server ([src/unnamed/part_000], lines 181-483) *)
Module HousingApi.
Import JS Timestamps.

(** [saveUpdateTimestamp()] (lines 223-232): it creates the directory
    first. *)
Definition saveUpdateTimestamp (now : string) (d : DataDir) : Value * DataDir :=
  (JStr now, written now).

(** [getLastUpdateTimestamp()] (lines 235-256): a file that does not parse
    is written anew. *)
Definition getLastUpdateTimestamp (now : string) (d : DataDir) : Value * DataDir :=
  match d with
  | File (ParsesTo lastUpdate) => (lastUpdate, d)
  | _ => saveUpdateTimestamp now d
  end.

(** [POST /update-data] (lines 415-453); [scriptExists] is
    [fs.existsSync(updateScript)]. *)
Definition updateData (scriptExists failed : bool) (now : string) (d : DataDir)
  : UpdateResponse * DataDir :=
  if negb scriptExists then (Status500, d)
  else if failed then (Status500, d)
  else let '(timestamp, d') := saveUpdateTimestamp now d in (Success timestamp, d').

End HousingApi.

(** ** The deployment script *)

Module Deploy.

(** What [docker inspect] prints for a container, as [wait_for_health]
    tells the cases apart. *)
Inductive Health :=
| Healthy
| Running
| NotFound
| Other.

(** The loop of [wait_for_health] (init-system.sh, lines 220-249) from
    attempt [attempt] on, with [remaining] attempts left including this one;
    [health i] is the status read at attempt [i].  The result is the return
    code and the number of 10-second sleeps. *)
Fixpoint waitFrom (health : nat -> Health) (attempt remaining : nat) : nat * nat :=
  match remaining with
  | O => (0, 0)
  | S rest =>
      match health attempt with
      | Healthy => (0, 0)
      | NotFound => (1, 0)
      | Running =>
          match rest with
          | O => (0, 0)
          | _ => let '(code, sleeps) := waitFrom health (S attempt) rest in
                 (code, S sleeps)
          end
      | Other => let '(code, sleeps) := waitFrom health (S attempt) rest in
                 (code, S sleeps)
      end
  end.

(** [wait_for_health container max_attempts] *)
Definition wait_for_health (health : nat -> Health) (max_attempts : nat) : nat * nat :=
  waitFrom health 1 max_attempts.

End Deploy.

(** ** Notions used to state further properties *)

Module Views.
Import JS Scoring.

(** The zipcode under which a feature is scored, if any. *)
Definition featureZip (f : Feature) : option string :=
  properties f ≫= zipcodeOf.

(** The score of a result as the replacement of [applyFixes] would report
    it: the average when there is one, 5 where the original reports an
    error. *)
Definition orMidpoint (r : ZipcodeScore) : float :=
  match error r with
  | None => finalScore r
  | Some _ => 5%float
  end.

(** Every enabled criterion of the state has a value for the unit that
    reads as a number. *)
Definition completeFor (st : State) (p : Properties) : Prop :=
  forall c, In c (criteria st) -> enabled c = true ->
    isNullish (getProperty p (id c)) = false
    /\ PrimFloat.is_nan (parseFloat (getProperty p (id c))) = false.

(** The rating kinds the GeoJSON endpoint sends. *)
Definition advertisedKinds : list string :=
  ["schoolRating"; "crimeRate"; "nicheRating"; "commuteTime";
   "neighborhoodRating"]%string.

(** A number that JSON transports and [||] keeps: finite and not zero. *)
Definition usable (f : float) : bool :=
  PrimFloat.is_finite f && negb (PrimFloat.is_zero f).

(** The criterion has a value for the unit that reads as a number. *)
Definition readsAsNumber (p : Properties) (c : Criterion) : Prop :=
  isNullish (getProperty p (id c)) = false
  /\ PrimFloat.is_nan (parseFloat (getProperty p (id c))) = false.

(** What a rating property of a served feature holds, from the rows of the
    table. *)
Definition servedRating (rows : list GeoJson.RatingRow) (zipcode kind : string)
  : Value :=
  match Client.storedValue rows zipcode kind with
  | Some (Some x) => if truthy (JNum x) then JNum x else JNull
  | _ => JNull
  end.

(** [v !== undefined] *)
Definition defined (v : Value) : bool :=
  match v with JUndefined => false | _ => true end.

(** A status at which [wait_for_health] returns at every attempt. *)
Definition settles (h : Deploy.Health) : Prop :=
  h = Deploy.Healthy \/ h = Deploy.NotFound.

(** A run of inserts into [zipcode_ratings] as far as the unique index
    decides it: [None] as soon as the index refuses one.  Every run the
    database accepts is among those the index accepts. *)
Definition insertAll (rs : list RatingStore.Row) (table : list RatingStore.Row)
  : option (list RatingStore.Row) :=
  fold_left (fun acc r => acc ≫= RatingStore.insertUnderIndex r) rs (Some table).

(** A run of [INSERT] statements into [zipcode_ratings], beside a table
    [zipcodes] with the given keys; [None] as soon as the database refuses
    one. *)
Definition insertStatements (zipcodes : list string)
    (rs : list RatingStore.Row) (table : list RatingStore.Row)
  : option (list RatingStore.Row) :=
  fold_left (fun acc r => acc ≫= RatingStore.insertRow zipcodes r) rs (Some table).

End Views.

(** ** Sample inputs *)

Module Samples.
Import JS Scoring.

Definition criterion (key : string) (w : float) (inv : bool) : Criterion :=
  {| id := key; weight := w; invert := inv; enabled := true |}.

Definition unit (zipcode : string) (rs : list (string * Value)) : Properties :=
  {| ZIP := Some zipcode; ZCTA5CE10 := None; ratings := list_to_map rs |}.

Definition withCriteria (cs : list Criterion) : State :=
  {| criteria := cs; zipcodeData := None |}.

(** School rating 4, crime rate 8. *)
Definition propsSchoolCrime : Properties :=
  unit "94110" [("schoolRating", JNum 4); ("crimeRate", JNum 8)]%string.

Definition unitSchoolCrime : Feature := {| properties := Some propsSchoolCrime |}.

(** Weights 1 and 3, neither inverted. *)
Definition twoCriteria : State :=
  withCriteria [criterion "schoolRating" 1 false; criterion "crimeRate" 3 false].

(** One criterion, switched off. *)
Definition allDisabled : State :=
  withCriteria [ {| id := "schoolRating"; weight := 1; invert := false;
                    enabled := false |} ].

(** School rating 8, crime rate null. *)
Definition propsCrimeMissing : Properties :=
  unit "94110" [("schoolRating", JNum 8); ("crimeRate", JNull)]%string.

Definition unitCrimeMissing : Feature := {| properties := Some propsCrimeMissing |}.

Definition crimeCriterion : Criterion := criterion "crimeRate" 1 false.

(** Both criteria with weight 1; the features are also in [state.zipcodeData]
    for the replacement installed by [applyFixes]. *)
Definition equalWeights : State :=
  {| criteria := [criterion "schoolRating" 1 false; crimeCriterion];
     zipcodeData := Some (Some [unitCrimeMissing]) |}.

(** No criterion at all. *)
Definition noCriteria : State := withCriteria [].

(** Crime rate 3, to be read inverted. *)
Definition propsCrimeThree : Properties := unit "94110" [("crimeRate", JNum 3)]%string.

Definition invertedCrime : Criterion := criterion "crimeRate" 2 true.

(** Ratings 0.1, 0.2 and 0.3 under three criteria of weight 1, listed in two
    orders. *)
Definition propsTenths : Properties :=
  unit "94110" [("schoolRating", JNum 0.1); ("crimeRate", JNum 0.2);
                ("commuteTime", JNum 0.3)]%string.

Definition unitTenths : Feature := {| properties := Some propsTenths |}.

Definition criteriaForward : list Criterion :=
  [criterion "schoolRating" 1 false; criterion "crimeRate" 1 false;
   criterion "commuteTime" 1 false].

Definition criteriaBackward : list Criterion := rev criteriaForward.

(** Two units with different zipcodes. *)
Definition unit94110 : Feature :=
  {| properties := Some (unit "94110" [("schoolRating", JNum 4)]%string) |}.

Definition unit94301 : Feature :=
  {| properties := Some (unit "94301" [("schoolRating", JNum 9)]%string) |}.




(** A school rating stored as the text [N/A], crime rate 4. *)
Definition propsSchoolText : Properties :=
  unit "94110" [("schoolRating", JStr "N/A"); ("crimeRate", JNum 4)]%string.

Definition unitSchoolText : Feature := {| properties := Some propsSchoolText |}.

Definition schoolThenCrime : State :=
  withCriteria [criterion "schoolRating" 1 false; criterion "crimeRate" 2 false].

(** The unit 94110 as the API reads it from [zipcodes]. *)
Definition zipcode94110 : GeoJson.ZipcodeRow :=
  {| GeoJson.zip := "94110"; GeoJson.name := Some "San Francisco"%string;
     GeoJson.county := Some "San Francisco"%string;
     GeoJson.state := Some "CA"%string; GeoJson.geom := None |}.

(** A rating of unit 94110 as the API reads it from [zipcode_ratings]. *)
Definition storedRating (kind : string) (v : float) : GeoJson.RatingRow :=
  {| GeoJson.r_zip := Some "94110"%string; GeoJson.rating_type := kind;
     GeoJson.rating_value := Some v; GeoJson.confidence := Some 0.5%float |}.

(** A store that knows the units 94110 and 94301 and already holds a school
    rating of 6 for unit 94110. *)
Definition storeWithSchool : RatingStore.Store :=
  {| RatingStore.zipcodes := ["94110"; "94301"]%string;
     RatingStore.rows :=
       [RatingStore.fresh 1 "94110" "schoolRating" 6 0.5 "cde" 1700000000];
     RatingStore.next_id := 2 |}.

(** Three registered sources; two have run and are next due at 5000 and
    9000, one has never run. *)
Definition schedulerBefore : Scheduler.State :=
  {| Scheduler.registry :=
       list_to_map
         [("census", {| Scheduler.frequency := 86400; Scheduler.source_url := None |});
          ("crime", {| Scheduler.frequency := 3600; Scheduler.source_url := None |});
          ("niche", {| Scheduler.frequency := 604800; Scheduler.source_url := None |})]%string;
     Scheduler.data_sources :=
       list_to_map
         [("census", {| Scheduler.last_updated := Some 1000%Z;
                        Scheduler.next_update := Some 5000%Z;
                        Scheduler.update_frequency := Some 4000%Z;
                        Scheduler.url := None; Scheduler.notes := None |});
          ("crime", {| Scheduler.last_updated := Some 2000%Z;
                       Scheduler.next_update := Some 9000%Z;
                       Scheduler.update_frequency := Some 7000%Z;
                       Scheduler.url := None; Scheduler.notes := None |})]%string |}.

End Samples.

(** * Properties *)

(** ** Floats *)

Section FloatFacts.

(** The two zeros are the only floats that compare equal to zero. *)
Lemma is_zero_inv (f : float) :
  PrimFloat.is_zero f = true -> f = zero \/ f = neg_zero.
Proof.
  unfold PrimFloat.is_zero. rewrite FloatAxioms.eqb_spec.
  intros H. rewrite <- (SF2Prim_Prim2SF f).
  destruct (Prim2SF f) as [[] | [] | | [] m e]; cbn in H; try discriminate.
  - right. reflexivity.
  - left. reflexivity.
Qed.

(** [parseFloat] on text: leading blanks are skipped, the longest numeric
    prefix is read and rounded to the nearest float, and text without such a
    prefix gives NaN. *)
Example parseFloat_reads_numeric_prefix :
  JS.parseFloat (JS.JStr "3") = 3%float
  /\ JS.parseFloat (JS.JStr "  7.25 stars") = 7.25%float
  /\ JS.parseFloat (JS.JStr "0.1") = 0.1%float
  /\ JS.parseFloat (JS.JStr "-.5e1") = (-5)%float
  /\ JS.parseFloat (JS.JStr "1e400") = infinity
  /\ JS.parseFloat (JS.JStr "4.9e-324") = 4.9e-324%float
  /\ JS.parseFloat (JS.JStr "N/A") = nan
  /\ JS.parseFloat (JS.JStr "") = nan
  /\ JS.parseFloat JS.JNull = nan
  /\ JS.parseFloat (JS.JNum neg_zero) = zero.
Proof. repeat split; vm_compute; reflexivity. Qed.

End FloatFacts.

(** ** The inner loop of [calculateZipcodeScores] *)

Section CriteriaLoop.
Import JS Scoring ScoringSpec.

Variable p : Properties.

Lemma criterionScore_contributed (c : Criterion) :
  criterionScore c (getProperty p (id c)) = contributedScore p c.
Proof. reflexivity. Qed.

(** What the read finds: a rating kind that the unit's own properties do not
    hold, or hold as [null], reads as missing unless the kind is named like
    a member of [Object.prototype]; such a kind reads as the inherited
    member whenever the unit has no own property of that name. *)
Lemma read_of_absent_kind (key : string) :
  ratings p !! key = None ->
  key <> "ZIP"%string -> key <> "ZCTA5CE10"%string ->
  getProperty p key = default JUndefined (objectPrototype key)
  /\ (isNullish (getProperty p key) = true <-> objectPrototype key = None).
Proof.
  intros Hown Hzip Hzcta.
  assert (Hget : getProperty p key = default JUndefined (objectPrototype key)).
  { unfold getProperty.
    destruct (String.eqb_spec key "ZIP"); [contradiction |].
    destruct (String.eqb_spec key "ZCTA5CE10"); [contradiction |].
    now rewrite Hown. }
  split; [exact Hget |]. rewrite Hget. unfold objectPrototype.
  destruct (String.eqb key "constructor"); [cbn; split; discriminate |].
  destruct (String.eqb key "__proto__"); [cbn; split; discriminate |].
  destruct (existsb _ _); cbn; split; try discriminate; reflexivity.
Qed.

Lemma criterionStep_missing (t : Totals) (c : Criterion) :
  ~ hasObservation p c ->
  criterionStep p t c =
    {| totalScore := totalScore t; totalWeight := totalWeight t;
       usedCount := usedCount t; entries := <[id c := Missing]> (entries t) |}.
Proof.
  unfold hasObservation, criterionStep. intros H.
  destruct (isNullish (getProperty p (id c))); [reflexivity | congruence].
Qed.

Lemma criterionStep_present (t : Totals) (c : Criterion) :
  hasObservation p c ->
  criterionStep p t c =
    {| totalScore := (totalScore t + contributedScore p c * weight c)%float;
       totalWeight := (totalWeight t + weight c)%float;
       usedCount := S (usedCount t);
       entries := <[id c := Scored (getProperty p (id c)) (invert c)
                              (contributedScore p c) (weight c)
                              (contributedScore p c * weight c)%float]> (entries t) |}.
Proof.
  unfold hasObservation, criterionStep. intros ->. reflexivity.
Qed.

(** The three running totals only see the criteria that have an observation. *)
Lemma loop_totals (cs : list Criterion) (t : Totals) :
  let t' := fold_left (criterionStep p) cs t in
  let withData := filter (hasObservation p) cs in
  totalScore t' =
    fold_left (fun acc c => (acc + contributedScore p c * weight c)%float)
      withData (totalScore t)
  /\ totalWeight t' =
    fold_left (fun acc c => (acc + weight c)%float) withData (totalWeight t)
  /\ usedCount t' = (usedCount t + length withData)%nat.
Proof.
  revert t. induction cs as [| c cs IH]; intros t; cbn zeta.
  - cbn. repeat split. lia.
  - cbn [fold_left]. rewrite filter_cons.
    destruct (decide (hasObservation p c)) as [Hc | Hc].
    + specialize (IH (criterionStep p t c)). cbn zeta in IH.
      rewrite (criterionStep_present t c Hc) in IH |- *.
      cbn [totalScore totalWeight usedCount fold_left length] in IH |- *.
      destruct IH as (-> & -> & ->). repeat split. lia.
    + specialize (IH (criterionStep p t c)). cbn zeta in IH.
      rewrite (criterionStep_missing t c Hc) in IH |- *.
      cbn [totalScore totalWeight usedCount] in IH. exact IH.
Qed.



End CriteriaLoop.

(** ** The outer loop of [calculateZipcodeScores] *)

Section FeatureLoop.
Import JS Scoring ScoringSpec.

Variable activeCriteria : list Criterion.

(** The score of one unit is the weighted average over the criteria that
    have an observation for it. *)
Lemma scoreFeature_spec (p : Properties) :
  let withData := filter (hasObservation p) activeCriteria in
  finalScore (scoreFeature activeCriteria p) = weightedAverage p withData
  /\ usedCriteria (scoreFeature activeCriteria p) =
       (if (0 <? weightSum withData)%float then length withData else 0%nat)
  /\ totalCriteria (scoreFeature activeCriteria p) = length activeCriteria.
Proof.
  cbn zeta. unfold scoreFeature, weightedAverage, weightedSum, weightSum.
  destruct (loop_totals p activeCriteria noTotals) as (H1 & H2 & H3).
  cbn zeta in H1, H2, H3. cbn [noTotals totalScore totalWeight usedCount] in H1, H2, H3.
  rewrite <- H1, <- H2.
  destruct (0 <? totalWeight (fold_left (criterionStep p) activeCriteria noTotals))%float;
    cbn [finalScore usedCriteria totalCriteria]; auto.
Qed.

Lemma featureStep_lookup (m : gmap string ZipcodeScore) (f : Feature) (z : string) :
  featureStep activeCriteria m f !! z =
    match properties f with
    | Some p =>
        if decide (zipcodeOf p = Some z) then Some (scoreFeature activeCriteria p)
        else m !! z
    | None => m !! z
    end.
Proof.
  unfold featureStep. destruct (properties f) as [p |]; [| reflexivity].
  destruct (zipcodeOf p) as [z' |].
  - destruct (decide (Some z' = Some z)) as [[= ->] | Hne].
    + apply lookup_insert_eq.
    + apply lookup_insert_ne. congruence.
  - destruct (decide (None = Some z)); [discriminate | reflexivity].
Qed.

(** Every stored score was computed from a feature carrying that zipcode. *)
Lemma scores_lookup_inv (fs : list Feature) (m : gmap string ZipcodeScore)
    (z : string) (r : ZipcodeScore) :
  fold_left (featureStep activeCriteria) fs m !! z = Some r ->
  m !! z = Some r \/
  exists p, In {| properties := Some p |} fs /\ zipcodeOf p = Some z
            /\ r = scoreFeature activeCriteria p.
Proof.
  revert m. induction fs as [| f fs IH]; intros m H; [left; exact H |].
  cbn [fold_left] in H. apply IH in H as [H | (p & Hin & Hz & Hr)].
  - rewrite featureStep_lookup in H. destruct f as [[p |]]; cbn in H; [| now left].
    destruct (decide (zipcodeOf p = Some z)) as [Hz |]; [| now left].
    right. exists p. repeat split; [now left | exact Hz | congruence].
  - right. exists p. repeat split; [now right | exact Hz | exact Hr].
Qed.

(** Every feature with properties and a zipcode gets a score. *)
Lemma scores_lookup_total (fs : list Feature) (m : gmap string ZipcodeScore)
    (p : Properties) (z : string) :
  In {| properties := Some p |} fs -> zipcodeOf p = Some z ->
  is_Some (fold_left (featureStep activeCriteria) fs m !! z).
Proof.
  intros Hin Hz. revert m.
  induction fs as [| f fs IH] using rev_ind; intros m; [destruct Hin |].
  rewrite fold_left_app. cbn [fold_left]. rewrite featureStep_lookup.
  apply in_app_or in Hin as [Hin | [-> | []]].
  - destruct (properties f) as [q |]; [| now apply IH].
    destruct (decide (zipcodeOf q = Some z)); [eauto | now apply IH].
  - cbn. destruct (decide (zipcodeOf p = Some z)); [eauto | contradiction].
Qed.

(** The result of a unit that no other feature of the input contradicts is
    the one computed from its own properties. *)
Lemma unit_result (fs : list Feature) (p : Properties) (z : string) :
  In {| properties := Some p |} fs -> zipcodeOf p = Some z ->
  (forall q, In {| properties := Some q |} fs -> zipcodeOf q = Some z -> q = p) ->
  exists r, fold_left (featureStep activeCriteria) fs ∅ !! z = Some r
            /\ r = scoreFeature activeCriteria p.
Proof.
  intros Hin Hz Hsole.
  destruct (scores_lookup_total fs ∅ p z Hin Hz) as [r Hr].
  exists r. split; [exact Hr |].
  destruct (scores_lookup_inv fs ∅ z r Hr) as [Hempty | (q & Hq & Hzq & ->)].
  - rewrite lookup_empty in Hempty. discriminate.
  - now rewrite (Hsole q Hq Hzq).
Qed.

(** Two features of one snapshot can be scored in either order. *)
Lemma featureStep_comm (m : gmap string ZipcodeScore) (f g : Feature) :
  fromOneSnapshot [f; g] ->
  featureStep activeCriteria (featureStep activeCriteria m f) g =
  featureStep activeCriteria (featureStep activeCriteria m g) f.
Proof.
  intros Hsnap. unfold featureStep.
  destruct f as [[p |]], g as [[q |]]; cbn [properties]; try reflexivity.
  destruct (zipcodeOf p) as [zp |] eqn:Hp, (zipcodeOf q) as [zq |] eqn:Hq;
    try reflexivity.
  destruct (decide (zp = zq)) as [-> | Hne].
  - assert (p = q) as ->; [| reflexivity].
    apply (Hsnap p q zq); [now left | right; now left | exact Hp | exact Hq].
  - apply insert_insert_ne. congruence.
Qed.

Lemma fromOneSnapshot_incl (fs fs' : list Feature) :
  (forall f, In f fs' -> In f fs) -> fromOneSnapshot fs -> fromOneSnapshot fs'.
Proof.
  intros Hincl Hsnap p q z Hp Hq. apply Hsnap; now apply Hincl.
Qed.

(** The scores of the features of one snapshot do not depend on the order
    of the features. *)
Lemma scores_permutation (fs fs' : list Feature) :
  Permutation fs fs' -> fromOneSnapshot fs ->
  forall m, fold_left (featureStep activeCriteria) fs m
            = fold_left (featureStep activeCriteria) fs' m.
Proof.
  induction 1 as [| f fs fs' Hperm IH | f g fs | fs fs' fs'' H1 IH1 H2 IH2];
    intros Hsnap m.
  - reflexivity.
  - cbn [fold_left]. apply IH.
    apply (fromOneSnapshot_incl (f :: fs)); [| exact Hsnap].
    intros x Hx. now right.
  - cbn [fold_left]. f_equal. apply featureStep_comm.
    apply (fromOneSnapshot_incl (g :: f :: fs)); [| exact Hsnap].
    intros x [<- | [<- | []]]; [now left | right; now left].
  - rewrite IH1 by exact Hsnap. apply IH2.
    apply (fromOneSnapshot_incl fs); [| exact Hsnap].
    intros x Hx. apply Permutation_in with (l := fs'); [| exact Hx].
    now apply Permutation_sym.
Qed.

End FeatureLoop.

(** ** Claims about the scoring script *)

Section ScoringClaims.
Import JS Scoring ScoringSpec Samples.

(** C1 (as amended).  For every unit of the input (a feature with
    properties and a zipcode, no feature carrying the same zipcode with
    other properties) and every criteria list with at least one enabled
    criterion, the result stored under the unit's zipcode has [finalScore]
    equal to the weighted average
    [sum(contributed_i * weight_i) / sum(weight_i)] over the enabled criteria
    that have an observation for that unit, whenever that weight sum is
    positive; otherwise, and in particular when every enabled criterion
    lacks data, [finalScore] is the sentinel 0 and [usedCriteria] is 0. *)
Theorem C1_final_score_is_weighted_average
    (st : State) (fs : list Feature) (p : Properties) (z : string) :
  In {| properties := Some p |} fs ->
  zipcodeOf p = Some z ->
  (forall q, In {| properties := Some q |} fs -> zipcodeOf q = Some z -> q = p) ->
  filter (fun c => enabled c = true) (criteria st) <> [] ->
  exists r : ZipcodeScore,
    calculateZipcodeScores st (Some fs) !! z = Some r
    /\ let withData :=
         filter (hasObservation p) (filter (fun c => enabled c = true) (criteria st)) in
       finalScore r = weightedAverage p withData
       /\ usedCriteria r =
            (if (0 <? weightSum withData)%float then length withData else 0%nat)
       /\ (withData = [] -> finalScore r = sentinel /\ usedCriteria r = 0%nat).
Proof.
  intros Hin Hz Hsole Hactive.
  unfold calculateZipcodeScores.
  destruct fs as [| f fs]; [destruct Hin |].
  remember (filter (fun c => enabled c = true) (criteria st)) as ac eqn:Eac.
  assert (Hloop : match ac with
                  | [] => ∅
                  | _ => fold_left (featureStep ac) (f :: fs) ∅
                  end = fold_left (featureStep ac) (f :: fs) ∅)
    by (destruct ac; [congruence | reflexivity]).
  rewrite Hloop. clear Hloop Hactive Eac.
  destruct (unit_result ac (f :: fs) p z Hin Hz Hsole) as [r [Hr ->]].
  exists (scoreFeature ac p). split; [exact Hr |].
  destruct (scoreFeature_spec ac p) as (H1 & H2 & _). cbn zeta in H1, H2 |- *.
  split; [exact H1 |]. split; [exact H2 |].
  intros Hnil. rewrite H1, H2, Hnil. split; reflexivity.
Qed.

(** C1: on the sample unit with the two sample criteria (weights 1 and 3,
    values 4 and 8) the theorem yields the stored result. *)
Lemma C1_final_score_is_weighted_average_witness :
  exists r : ZipcodeScore,
    calculateZipcodeScores twoCriteria (Some [unitSchoolCrime]) !! "94110" = Some r
    /\ let withData :=
         filter (hasObservation propsSchoolCrime)
           (filter (fun c => enabled c = true) (criteria twoCriteria)) in
       finalScore r = weightedAverage propsSchoolCrime withData
       /\ usedCriteria r =
            (if (0 <? weightSum withData)%float then length withData else 0%nat)
       /\ (withData = [] -> finalScore r = sentinel /\ usedCriteria r = 0%nat).
Proof.
  apply (C1_final_score_is_weighted_average twoCriteria [unitSchoolCrime]
           propsSchoolCrime "94110").
  - left. reflexivity.
  - reflexivity.
  - intros q [Hq | []] _. now injection Hq as <-.
  - vm_compute. discriminate.
Defined.

(** C1, as stated, fails when no criterion is enabled: the unit has data for
    the only criterion, which is disabled, and receives no result at all, so
    none with the sentinel score and [usedCriteria = 0]. *)
Lemma C1_no_result_when_all_criteria_disabled :
  ~ exists r : ZipcodeScore,
      calculateZipcodeScores allDisabled (Some [unitSchoolCrime]) !! "94110" = Some r
      /\ finalScore r = sentinel /\ usedCriteria r = 0%nat.
Proof.
  intros (r & Hr & _). vm_compute in Hr. discriminate.
Qed.

(** The worked example of the specification: weights 1 and 3, values 4 and
    8, give (4*1 + 8*3) / (1+3) = 7. *)
Example two_criteria_score :
  finalScore <$> calculateZipcodeScores twoCriteria (Some [unitSchoolCrime]) !! "94110"
  = Some 7%float.
Proof. vm_compute. reflexivity. Qed.




(** With one of two criteria lacking data the score is the other
    criterion's value: 8, not the 6.5 an average with a midpoint would give. *)
Example missing_criterion_score :
  finalScore <$> calculateZipcodeScores equalWeights (Some [unitCrimeMissing]) !! "94110"
  = Some 8%float.
Proof. vm_compute. reflexivity. Qed.

(** C3 (as amended).  When no criterion is enabled, and in particular for an
    empty criteria list, [calculateZipcodeScores] raises no error and returns
    the empty mapping, whatever the features hold: no unit receives a
    result. *)
Theorem C3_no_enabled_criteria_gives_empty_scores
    (st : State) (features : option (list Feature)) :
  filter (fun c => enabled c = true) (criteria st) = [] ->
  calculateZipcodeScores st features = ∅.
Proof.
  intros Hnone. unfold calculateZipcodeScores.
  destruct features as [[| f fs] |]; try reflexivity.
  now rewrite Hnone.
Qed.

(** C3: the empty criteria list over a unit that has data. *)
Lemma C3_no_enabled_criteria_gives_empty_scores_witness :
  calculateZipcodeScores noCriteria (Some [unitSchoolCrime]) = ∅.
Proof.
  apply (C3_no_enabled_criteria_gives_empty_scores noCriteria (Some [unitSchoolCrime])).
  reflexivity.
Defined.

(** C3, as stated, fails for [criteria = []]: the unit in the input has no
    entry in the result, so none with the sentinel score and
    [usedCriteria = 0]. *)
Lemma C3_empty_criteria_unit_has_no_result :
  ~ exists r : ZipcodeScore,
      calculateZipcodeScores noCriteria (Some [unitSchoolCrime]) !! "94110" = Some r
      /\ finalScore r = sentinel /\ usedCriteria r = 0%nat.
Proof.
  intros (r & Hr & _). vm_compute in Hr. discriminate.
Qed.

(** C4.  For a criterion whose property holds the number [v], the score it
    contributes is [SCALE_MAX - v] with the constant [SCALE_MAX = 10] when
    [invert] is set (7 for [v = 3]), and [v] itself otherwise, where reading
    the number normalises a negative zero to zero.  That score, and its
    product with the weight, are what the breakdown records and what the
    running sum receives. *)
Theorem C4_inverted_score_is_ten_minus_value
    (p : Properties) (c : Criterion) (v : float) (t : Totals) :
  getProperty p (id c) = JNum v ->
  let s := criterionScore c (getProperty p (id c)) in
  SCALE_MAX = 10%float
  /\ (invert c = true -> s = (SCALE_MAX - v)%float)
  /\ (invert c = true -> v = 3%float -> s = 7%float)
  /\ (invert c = false -> s = v \/ (v = neg_zero /\ s = zero))
  /\ entries (criterionStep p t c) !! id c
     = Some (Scored (JNum v) (invert c) s (weight c) (s * weight c)%float)
  /\ totalScore (criterionStep p t c) = (totalScore t + s * weight c)%float
  /\ totalWeight (criterionStep p t c) = (totalWeight t + weight c)%float.
Proof.
  intros Hv. cbn zeta.
  assert (Hinv : invert c = true ->
                 criterionScore c (getProperty p (id c)) = (SCALE_MAX - v)%float).
  { intros Hi. unfold criterionScore, SCALE_MAX. rewrite Hv, Hi. cbn [parseFloat].
    destruct (PrimFloat.is_zero v) eqn:Hzero; [| reflexivity].
    destruct (is_zero_inv v Hzero) as [-> | ->]; reflexivity. }
  split; [reflexivity |]. split; [exact Hinv |]. split.
  { intros Hi ->. rewrite (Hinv Hi). reflexivity. }
  split.
  { intros Hi. unfold criterionScore. rewrite Hv, Hi. cbn [parseFloat].
    destruct (PrimFloat.is_zero v) eqn:Hzero; [| now left].
    destruct (is_zero_inv v Hzero) as [-> | ->]; [now left | now right]. }
  assert (Hobs : hasObservation p c) by (unfold hasObservation; now rewrite Hv).
  rewrite (criterionStep_present p t c Hobs).
  cbn [entries totalScore totalWeight]. rewrite lookup_insert_eq.
  rewrite <- criterionScore_contributed, Hv. auto.
Qed.

(** C4: the inverted crime-rate criterion on a unit whose crime rate is 3. *)
Lemma C4_inverted_score_is_ten_minus_value_witness :
  let s := criterionScore invertedCrime (getProperty propsCrimeThree (id invertedCrime)) in
  SCALE_MAX = 10%float
  /\ (invert invertedCrime = true -> s = (SCALE_MAX - 3)%float)
  /\ (invert invertedCrime = true -> 3%float = 3%float -> s = 7%float)
  /\ (invert invertedCrime = false -> s = 3%float \/ (3%float = neg_zero /\ s = zero))
  /\ entries (criterionStep propsCrimeThree noTotals invertedCrime) !! id invertedCrime
     = Some (Scored (JNum 3) (invert invertedCrime) s (weight invertedCrime)
               (s * weight invertedCrime)%float)
  /\ totalScore (criterionStep propsCrimeThree noTotals invertedCrime)
     = (totalScore noTotals + s * weight invertedCrime)%float
  /\ totalWeight (criterionStep propsCrimeThree noTotals invertedCrime)
     = (totalWeight noTotals + weight invertedCrime)%float.
Proof.
  apply (C4_inverted_score_is_ten_minus_value propsCrimeThree invertedCrime 3 noTotals).
  reflexivity.
Defined.

(** An inverted criterion with observed value 3 contributes 7, also when the
    value arrives as text. *)
Example inverted_three_scores_seven :
  criterionScore invertedCrime (JNum 3) = 7%float
  /\ criterionScore invertedCrime (JStr "3") = 7%float.
Proof. split; vm_compute; reflexivity. Qed.

(** C6.  The two fallback policies are not equivalent: on a unit whose
    school rating is 8 and whose crime rate is null, under two criteria of
    weight 1, [calculateZipcodeScores] skips the crime rate and scores 8,
    while the replacement installed by [applyFixes] substitutes 5 and scores
    6.5. *)
Theorem C6_fallback_policies_differ :
  exists (st : State) (fs : list Feature) (z : string) (r : ZipcodeScore) (x : float),
    zipcodeData st = Some (Some fs)
    /\ calculateZipcodeScores st (Some fs) !! z = Some r
    /\ fixedCalculateZipcodeScores st !! z = Some x
    /\ finalScore r = 8%float /\ x = 6.5%float
    /\ finalScore r <> x.
Proof.
  exists equalWeights, [unitCrimeMissing], "94110"%string.
  eexists. exists 6.5%float.
  split; [reflexivity |].
  split; [vm_compute; reflexivity |].
  split; [vm_compute; reflexivity |].
  cbn [finalScore].
  split; [reflexivity |]. split; [reflexivity |].
  discriminate.
Qed.

(** C9 (as amended).  [calculateZipcodeScores] is a function of the criteria
    and the features alone, and for features read from one snapshot (equal
    zipcodes carry equal properties) it returns the same mapping for every
    order of the features.  (The criteria are summed in array order:
    reordering them can change [finalScore] in its last bits.) *)
Theorem C9_scores_independent_of_unit_order
    (st : State) (fs fs' : list Feature) :
  Permutation fs fs' ->
  fromOneSnapshot fs ->
  calculateZipcodeScores st (Some fs) = calculateZipcodeScores st (Some fs').
Proof.
  intros Hperm Hsnap. unfold calculateZipcodeScores.
  destruct fs as [| f fs].
  - apply Permutation_nil in Hperm. now subst.
  - destruct fs' as [| f' fs'].
    + apply Permutation_sym, Permutation_nil in Hperm. discriminate.
    + destruct (filter (fun c => enabled c = true) (criteria st)); [reflexivity |].
      now apply scores_permutation.
Qed.

(** C9: two units with different zipcodes, in both orders. *)
Lemma C9_scores_independent_of_unit_order_witness :
  calculateZipcodeScores twoCriteria (Some [unit94110; unit94301])
  = calculateZipcodeScores twoCriteria (Some [unit94301; unit94110]).
Proof.
  apply (C9_scores_independent_of_unit_order twoCriteria
           [unit94110; unit94301] [unit94301; unit94110]).
  - apply perm_swap.
  - intros p q z [Hp | [Hp | []]] [Hq | [Hq | []]] Hzp Hzq;
      injection Hp as <-; injection Hq as <-;
      try reflexivity; vm_compute in Hzp, Hzq; congruence.
Defined.

(** C9, as stated, fails for the order of the criteria: the same unit under
    the same three criteria of weight 1 scores 0.20000000000000004 when the
    ratings 0.1, 0.2, 0.3 are added in that order and 0.19999999999999998
    when they are added in the reverse order. *)
Lemma C9_criteria_order_changes_score :
  Permutation criteriaForward criteriaBackward
  /\ finalScore <$> calculateZipcodeScores (withCriteria criteriaForward)
                      (Some [unitTenths]) !! "94110"
     <> finalScore <$> calculateZipcodeScores (withCriteria criteriaBackward)
                         (Some [unitTenths]) !! "94110".
Proof.
  split.
  - apply Permutation_rev.
  - vm_compute. discriminate.
Qed.

(** C10.  A present value that does not read as a number is neither skipped
    nor rejected: with the school rating stored as the text [N/A] (and a
    crime rate of 4), [parseFloat] yields NaN, the criterion is recorded as
    used with that score, both criteria count and both weights enter the
    weight sum, and the unit's [finalScore] is NaN, with no error, not the
    sentinel 0 and not the 4 that the remaining criterion alone would give. *)
Theorem C10_unparseable_value_poisons_score :
  exists (st : State) (p : Properties) (z : string) (c : Criterion)
         (s : string) (r : ZipcodeScore),
    In c (criteria st) /\ enabled c = true
    /\ getProperty p (id c) = JStr s
    /\ PrimFloat.is_nan (parseFloat (JStr s)) = true
    /\ calculateZipcodeScores st (Some [ {| properties := Some p |} ]) !! z = Some r
    /\ criteriaScores r !! id c = Some (Scored (JStr s) false nan (weight c) nan)
    /\ usedCriteria r = length (criteria st)
    /\ totalWeight (fold_left (criterionStep p) (criteria st) noTotals) = 3%float
    /\ PrimFloat.is_nan (finalScore r) = true
    /\ error r = None
    /\ finalScore r <> sentinel
    /\ finalScore r <> 4%float.
Proof.
  exists schoolThenCrime, propsSchoolText, "94110"%string,
         (criterion "schoolRating" 1 false), "N/A"%string.
  eexists.
  split; [left; reflexivity |].
  split; [reflexivity |].
  split; [reflexivity |].
  split; [vm_compute; reflexivity |].
  split; [vm_compute; reflexivity |].
  cbn [criteriaScores usedCriteria finalScore error].
  split; [vm_compute; reflexivity |].
  split; [reflexivity |].
  split; [vm_compute; reflexivity |].
  split; [vm_compute; reflexivity |].
  split; [reflexivity |].
  split; intros H; apply (f_equal PrimFloat.is_nan) in H; vm_compute in H; discriminate.
Qed.

End ScoringClaims.

(** ** The GeoJSON endpoint *)

Section GeoJsonClaims.
Import JS GeoJson Samples.

(** What [ratings.kind || null] evaluates to. *)
Lemma advertised_spec (ratings : gmap string Value) (kind : string) :
  advertised ratings kind =
    match ratings !! kind with
    | Some v => if truthy v then v else JNull
    | None => JNull
    end.
Proof.
  unfold advertised, or. now destruct (ratings !! kind).
Qed.

(** A stored rating other than zero and NaN reaches the feature unchanged. *)
Example stored_rating_is_advertised :
  exists f,
    geojson [zipcode94110] [storedRating "schoolRating" 7.5] = FeatureCollection [f]
    /\ schoolRating (properties f) = JNum 7.5
    /\ crimeRate (properties f) = JNull.
Proof. eexists. split; [reflexivity |]. split; vm_compute; reflexivity. Qed.

(** C7 (defect).  A crime rate stored as 0 is an observation of the unit:
    the handler files it under the unit's zipcode.  Yet the feature it
    builds carries [null] for [crimeRate], the marker for "no data",
    because [ratings.crimeRate || null] treats 0 as absent. *)
Theorem C7_stored_zero_is_sent_as_null :
  ratingsByZipcode [storedRating "crimeRate" 0] !! "94110" ≫= (.!! "crimeRate")
  = Some (JNum 0)
  /\ exists f,
      geojson [zipcode94110] [storedRating "crimeRate" 0] = FeatureCollection [f]
      /\ ZIP (properties f) = "94110"%string
      /\ ratingProperty "crimeRate" (properties f) = Some JNull.
Proof.
  split; [vm_compute; reflexivity |].
  eexists. split; [reflexivity |]. split; vm_compute; reflexivity.
Qed.

End GeoJsonClaims.

(** ** The rating store *)

Section RatingStoreClaims.
Import RatingStore Samples.

Lemma observations_nil_iff (rs : list Row) (u k : string) :
  observations rs u k = [] <-> (u, k) ∉ omap indexKey rs.
Proof.
  unfold observations. induction rs as [| r rs IH]; cbn [omap list_omap].
  - split; [intros _; apply not_elem_of_nil | reflexivity].
  - rewrite filter_cons.
    destruct (decide (hasKey u k r)) as [Hr | Hr]; unfold hasKey in Hr.
    + rewrite Hr. split; [discriminate | intros H; exfalso; apply H; now left].
    + destruct (indexKey r) as [key |]; [| exact IH].
      rewrite IH, not_elem_of_cons. split; [| tauto].
      intros H. split; [congruence | exact H].
Qed.

(** Under the unique index a pair has at most one row. *)
Lemma index_at_most_one (rs : list Row) (u k : string) :
  idx_zipcode_ratings_zip_type rs -> length (observations rs u k) <= 1.
Proof.
  unfold idx_zipcode_ratings_zip_type.
  induction rs as [| r rs IH]; cbn [omap list_omap]; [cbn; lia |].
  unfold observations in *. rewrite filter_cons.
  destruct (decide (hasKey u k r)) as [Hr | Hr]; unfold hasKey in Hr.
  - rewrite Hr. intros Hnd. apply NoDup_cons in Hnd as [Hnotin Hnd].
    apply observations_nil_iff in Hnotin. unfold observations in Hnotin.
    rewrite Hnotin. cbn. lia.
  - destruct (indexKey r) as [key |]; [| exact IH].
    intros Hnd. apply NoDup_cons in Hnd as [_ Hnd]. now apply IH.
Qed.

(** A row the index lets in never is a second row for a pair. *)
Lemma insertUnderIndex_keeps_index (r : Row) (rs rs' : list Row) :
  idx_zipcode_ratings_zip_type rs -> insertUnderIndex r rs = Some rs' ->
  idx_zipcode_ratings_zip_type rs'.
Proof.
  unfold idx_zipcode_ratings_zip_type, insertUnderIndex. intros Hnd.
  destruct (indexKey r) as [key |] eqn:Hkey.
  - destruct (decide (key ∈ omap indexKey rs)) as [| Hnotin]; [discriminate |].
    intros [= <-]. rewrite omap_app. cbn [omap list_omap]. rewrite Hkey.
    apply NoDup_app. split; [exact Hnd |]. split; [| apply NoDup_singleton].
    intros x Hx Hx'. apply list_elem_of_singleton in Hx'. now subst.
  - intros [= <-]. rewrite omap_app. cbn [omap list_omap]. rewrite Hkey.
    now rewrite app_nil_r.
Qed.



Section Write.
Variables (u k : string) (v c : float) (src : string) (now : Z).







Let stored : Observation :=
  {| value := v; obs_confidence := c; obs_source := src; lastUpdated := now |}.





End Write.






(** The replacement keeps the single row of the pair and overwrites its
    value; a confidence outside [0,1] is refused, and so are a value out of
    the range of [REAL] and a first observation for a unit that [zipcodes]
    does not hold. *)
Example upsert_overwrites_in_place :
  (exists s',
      upsert "94110" "schoolRating" 8.5 0.75 "greatschools" 1700003600 storeWithSchool
      = inl s'
      /\ rating_value <$> rows s' = [Some 8.5%float])
  /\ upsert "94110" "schoolRating" 8.5 1.5 "greatschools" 1700003600 storeWithSchool
     = inr ValidationError
  /\ upsert "94110" "schoolRating" 1e39 0.75 "greatschools" 1700003600 storeWithSchool
     = inr ValidationError
  /\ upsert "99999" "schoolRating" 8.5 0.75 "greatschools" 1700003600 storeWithSchool
     = inr DatabaseError.
Proof.
  split; [eexists; split; vm_compute; reflexivity |].
  repeat split; vm_compute; reflexivity.
Qed.

End RatingStoreClaims.

(** ** The source scheduler *)

Section SchedulerClaims.
Import Scheduler Samples.

Lemma isDue_empty (now : Z) (name : string) : isDue now ∅ name = true.
Proof. unfold isDue. now rewrite lookup_empty. Qed.

(** With no record left, every registered source is due. *)
Lemma dueSources_forceAll (now : Z) (s : State) :
  dueSources now (forceAll s) = fst <$> map_to_list (registry s).
Proof.
  unfold dueSources, forceAll. cbn [registry data_sources].
  induction (fst <$> map_to_list (registry s)) as [| n ns IH]; [reflexivity |].
  rewrite filter_cons, decide_True by apply isDue_empty. now rewrite IH.
Qed.

(** C8.  [forceAll] empties the [data_sources] table and leaves the
    registry alone; the tick that follows runs exactly the registered
    sources, each once, whatever records (and [nextUpdate] values) the table
    held before and whatever the outcome of the runs. *)
Theorem C8_force_all_then_tick_runs_every_source
    (s : State) (now : Z) (ingest : string -> bool) :
  data_sources (forceAll s) = ∅
  /\ registry (forceAll s) = registry s
  /\ let ran := fst (tick now ingest (forceAll s)) in
     ran = dueSources now (forceAll s)
     /\ NoDup ran
     /\ (forall name, name ∈ ran <-> is_Some (registry s !! name))
     /\ (forall name, is_Some (registry s !! name) ->
                      length (filter (fun n => n = name) ran) = 1).
Proof.
  split; [reflexivity |]. split; [reflexivity |]. cbn zeta.
  unfold tick. cbn [fst]. rewrite dueSources_forceAll.
  assert (Hnd : NoDup (fst <$> map_to_list (registry s)))
    by apply NoDup_fst_map_to_list.
  assert (Hin : forall name,
             name ∈ fst <$> map_to_list (registry s) <-> is_Some (registry s !! name)).
  { intros name. rewrite list_elem_of_fmap. split.
    - intros ([n cfg] & -> & Hel). apply elem_of_map_to_list in Hel. cbn. eauto.
    - intros [cfg Hcfg]. exists (name, cfg). split; [reflexivity |].
      now apply elem_of_map_to_list. }
  split; [reflexivity |]. split; [exact Hnd |]. split; [exact Hin |].
  intros name Hreg. apply Hin in Hreg. clear Hin.
  induction Hnd as [| n ns Hnotin Hnd IH]; [now apply not_elem_of_nil in Hreg |].
  rewrite filter_cons. destruct (decide (n = name)) as [-> | Hne].
  - cbn [length]. f_equal.
    assert (Hnone : forall l : list string, name ∉ l -> filter (fun n => n = name) l = []).
    { clear. intros l. induction l as [| x l IH]; intros Hx; [reflexivity |].
      apply not_elem_of_cons in Hx as [Hx Hl].
      rewrite filter_cons, decide_False by congruence. now apply IH. }
    now rewrite Hnone.
  - apply IH. apply elem_of_cons in Hreg as [-> | Hreg]; [congruence | exact Hreg].
Qed.

(** Before the reset only the source that never ran is due at time 3000;
    after it all three run, and a second tick right after a successful run
    finds nothing due. *)
Example force_all_makes_everything_due :
  dueSources 3000 schedulerBefore = ["niche"]%string
  /\ fst (tick 3000 (fun _ => true) (forceAll schedulerBefore))
     ≡ₚ ["census"; "crime"; "niche"]%string
  /\ fst (tick 3000 (fun _ => true)
            (snd (tick 3000 (fun _ => true) (forceAll schedulerBefore)))) = [].
Proof.
  split; [vm_compute; reflexivity |]. split.
  - vm_compute. reflexivity.
  - vm_compute. reflexivity.
Qed.

End SchedulerClaims.

(** ** Further properties of the scoring script *)

Section ScoringResults.
Import JS Scoring ScoringSpec Views.

Variable p : Properties.



(** A result reports an error exactly when it used no criterion. *)
Lemma scoreFeature_counts (ac : list Criterion) :
  let r := scoreFeature ac p in
  totalCriteria r = length ac
  /\ usedCriteria r <= totalCriteria r
  /\ (usedCriteria r = 0 <-> is_Some (error r))
  /\ (is_Some (error r) -> finalScore r = 0%float).
Proof.
  cbn zeta. unfold scoreFeature.
  destruct (loop_totals p ac noTotals) as (_ & H2 & H3). cbn zeta in H2, H3.
  cbn [noTotals totalWeight usedCount] in H2, H3.
  pose proof (length_filter (hasObservation p) ac) as Hle.
  destruct (0 <? totalWeight (fold_left (criterionStep p) ac noTotals))%float eqn:Hpos;
    cbn [totalCriteria usedCriteria error finalScore].
  - split; [reflexivity |]. split; [lia |]. split; [| intros [? [=]]].
    split; [| intros [? [=]]].
    intros Hzero. exfalso. rewrite H3 in Hzero.
    destruct (filter (hasObservation p) ac); [| discriminate].
    rewrite H2 in Hpos. cbn in Hpos. discriminate.
  - split; [reflexivity |]. split; [lia |]. split; [| reflexivity].
    split; [eauto | reflexivity].
Qed.

End ScoringResults.

Section ScoringExtras.
Import JS Scoring ScoringSpec Views Samples.

Abbreviation enabledOf st := (filter (fun c => enabled c = true) (criteria st)).

(** What the function computes once its two guards are passed. *)
Lemma calculate_unfold (st : State) (fs : list Feature) :
  calculateZipcodeScores st (Some fs) =
    match enabledOf st with
    | [] => ∅
    | _ => fold_left (featureStep (enabledOf st)) fs ∅
    end.
Proof.
  unfold calculateZipcodeScores. destruct fs as [| f fs]; [| reflexivity].
  now destruct (enabledOf st).
Qed.



(** Every result counts all enabled criteria in [totalCriteria], never
    reports more used criteria than that, and carries the error message
    exactly when it used none, in which case the score is 0. *)
Theorem result_counts_are_consistent
    (st : State) (fs : list Feature) (z : string) (r : ZipcodeScore) :
  calculateZipcodeScores st (Some fs) !! z = Some r ->
  totalCriteria r = length (enabledOf st)
  /\ usedCriteria r <= totalCriteria r
  /\ (usedCriteria r = 0 <-> is_Some (error r))
  /\ (is_Some (error r) -> finalScore r = 0%float).
Proof.
  rewrite calculate_unfold. intros Hr.
  assert (Hfold : fold_left (featureStep (enabledOf st)) fs ∅ !! z = Some r).
  { destruct (enabledOf st); [now rewrite lookup_empty in Hr | exact Hr]. }
  apply scores_lookup_inv in Hfold as [Hempty | (q & _ & _ & ->)];
    [now rewrite lookup_empty in Hempty |].
  apply scoreFeature_counts.
Qed.

Lemma result_counts_are_consistent_witness :
  let r := scoreFeature (criteria equalWeights) propsCrimeMissing in
  totalCriteria r = length (enabledOf equalWeights)
  /\ usedCriteria r <= totalCriteria r
  /\ (usedCriteria r = 0 <-> is_Some (error r))
  /\ (is_Some (error r) -> finalScore r = 0%float).
Proof.
  apply (result_counts_are_consistent equalWeights [unitCrimeMissing] "94110").
  vm_compute. reflexivity.
Defined.


End ScoringExtras.

Section ScoringAcrossUnits.
Import JS Scoring ScoringSpec Views Samples.

Abbreviation activeOf st := (filter (fun c => enabled c = true) (criteria st)).

Variable ac : list Criterion.

Lemma featureStep_lookup_zip (m : gmap string ZipcodeScore) (f : Feature) (z : string) :
  featureStep ac m f !! z =
    if decide (featureZip f = Some z)
    then scoreFeature ac <$> properties f
    else m !! z.
Proof.
  rewrite featureStep_lookup. unfold featureZip.
  destruct (properties f) as [q |]; cbn.
  - now destruct (decide (zipcodeOf q = Some z)).
  - now rewrite decide_False by discriminate.
Qed.

(** The entry of a zipcode only depends on what was stored for it before. *)
Lemma scores_lookup_congr (fs : list Feature) (m1 m2 : gmap string ZipcodeScore)
    (z : string) :
  m1 !! z = m2 !! z ->
  fold_left (featureStep ac) fs m1 !! z = fold_left (featureStep ac) fs m2 !! z.
Proof.
  revert m1 m2. induction fs as [| f fs IH]; intros m1 m2 H; [exact H |].
  cbn [fold_left]. apply IH. rewrite !featureStep_lookup_zip.
  now destruct (decide (featureZip f = Some z)).
Qed.

Lemma scores_lookup_filter (fs : list Feature) (m : gmap string ZipcodeScore)
    (z : string) :
  fold_left (featureStep ac) fs m !! z
  = fold_left (featureStep ac) (filter (fun f => featureZip f = Some z) fs) m !! z.
Proof.
  revert m. induction fs as [| f fs IH]; intros m; [reflexivity |].
  rewrite filter_cons. cbn [fold_left].
  destruct (decide (featureZip f = Some z)) as [Hz | Hz].
  - cbn [fold_left]. apply IH.
  - rewrite <- IH. apply scores_lookup_congr.
    rewrite featureStep_lookup_zip. now rewrite decide_False by exact Hz.
Qed.

Lemma scores_lookup_last (fs : list Feature) (m : gmap string ZipcodeScore)
    (q : Properties) (z : string) :
  zipcodeOf q = Some z ->
  fold_left (featureStep ac) (fs ++ [ {| properties := Some q |} ]) m !! z
  = Some (scoreFeature ac q).
Proof.
  intros Hz. rewrite fold_left_app. cbn [fold_left].
  rewrite featureStep_lookup_zip. unfold featureZip. cbn.
  now rewrite decide_True by exact Hz.
Qed.

End ScoringAcrossUnits.

Section ScoringUnits.
Import JS Scoring ScoringSpec Views Samples.

Abbreviation activeIn st := (filter (fun c => enabled c = true) (criteria st)).

(** The score of a zipcode depends on no feature of another zipcode: it is
    the score obtained from the features carrying that zipcode alone. *)
Theorem score_depends_on_own_features
    (st : State) (fs : list Feature) (z : string) :
  calculateZipcodeScores st (Some fs) !! z
  = calculateZipcodeScores st
      (Some (filter (fun f => featureZip f = Some z) fs)) !! z.
Proof.
  rewrite !calculate_unfold.
  destruct (activeIn st) as [| c ac] eqn:Hac; [reflexivity |].
  apply scores_lookup_filter.
Qed.

(** When several features carry the same zipcode, the last one in the input
    determines the stored score. *)
Theorem last_feature_of_a_zipcode_wins
    (st : State) (fs : list Feature) (q : Properties) (z : string) :
  activeIn st <> [] ->
  zipcodeOf q = Some z ->
  calculateZipcodeScores st (Some (fs ++ [ {| properties := Some q |} ])) !! z
  = Some (scoreFeature (activeIn st) q).
Proof.
  intros Hac Hz. rewrite calculate_unfold.
  destruct (activeIn st) as [| c ac] eqn:Eac; [congruence |].
  now apply scores_lookup_last.
Qed.

(** Unit 94110 twice, first with school rating 4 and crime rate 8, then
    with a null crime rate. *)
Lemma last_feature_of_a_zipcode_wins_witness :
  calculateZipcodeScores equalWeights
    (Some ([unitSchoolCrime] ++ [ {| properties := Some propsCrimeMissing |} ]))
    !! "94110"
  = Some (scoreFeature (activeIn equalWeights) propsCrimeMissing).
Proof.
  apply (last_feature_of_a_zipcode_wins equalWeights [unitSchoolCrime]
           propsCrimeMissing "94110").
  - vm_compute. discriminate.
  - reflexivity.
Defined.

End ScoringUnits.

(** ** The replacement installed by [applyFixes] against the original *)

Section FixPath.
Import JS Scoring ScoringSpec Views Samples.

Abbreviation activeFor st := (filter (fun c => enabled c = true) (criteria st)).

(** On criteria that all read as numbers the two inner loops keep the same
    sums. *)
Lemma fix_loop_agrees (p : Properties) (cs : list Criterion) (t : Totals)
    (ft : FixTotals) :
  Forall (readsAsNumber p) cs ->
  fixScore ft = totalScore t -> fixWeight ft = totalWeight t ->
  let t' := fold_left (criterionStep p) cs t in
  let ft' := fold_left (fixCriterionStep p) cs ft in
  fixScore ft' = totalScore t' /\ fixWeight ft' = totalWeight t'.
Proof.
  intros Hall. revert t ft. induction Hall as [| c cs [Hnull Hnan] _ IH];
    intros t ft Hs Hw; cbn zeta; [auto |].
  cbn [fold_left]. apply IH.
  - unfold fixCriterionStep, criterionStep, criterionScore.
    rewrite Hnull, Hnan. cbn [fixScore totalScore]. now rewrite Hs.
  - unfold fixCriterionStep, criterionStep.
    rewrite Hnull. cbn [fixWeight totalWeight]. now rewrite Hw.
Qed.

Lemma fixScoreFeature_agrees (p : Properties) (cs : list Criterion) :
  Forall (readsAsNumber p) cs ->
  fixScoreFeature cs p = orMidpoint (scoreFeature cs p).
Proof.
  intros Hall. unfold fixScoreFeature, scoreFeature, orMidpoint.
  destruct (fix_loop_agrees p cs noTotals
              {| fixScore := 0; fixWeight := 0; fixUsed := 0 |} Hall
              eq_refl eq_refl) as [Hs Hw].
  cbn zeta in Hs, Hw. rewrite Hs, Hw.
  now destruct (0 <? totalWeight (fold_left (criterionStep p) cs noTotals))%float.
Qed.

Lemma fix_fold_agrees (ac : list Criterion) (fs : list Feature)
    (m : gmap string ZipcodeScore) :
  (forall q, In {| properties := Some q |} fs -> Forall (readsAsNumber q) ac) ->
  fold_left (fixFeatureStep ac) fs (orMidpoint <$> m)
  = orMidpoint <$> fold_left (featureStep ac) fs m.
Proof.
  revert m. induction fs as [| f fs IH]; intros m Hall; [reflexivity |].
  cbn [fold_left].
  assert (Hstep : fixFeatureStep ac (orMidpoint <$> m) f
                  = orMidpoint <$> featureStep ac m f).
  { unfold fixFeatureStep, featureStep. destruct f as [[q |]]; cbn; [| reflexivity].
    destruct (zipcodeOf q) as [z |]; [| reflexivity].
    rewrite fmap_insert. f_equal. apply fixScoreFeature_agrees, Hall. now left. }
  rewrite Hstep. apply IH. intros q Hq. apply Hall. now right.
Qed.

(** On a unit for which every enabled criterion has a value that reads as
    a number, the replacement installed by [applyFixes] computes the same
    number as the original function: the whole mapping of the replacement is
    the original mapping with each result reduced to its [finalScore], or to
    5 where the original reports that no criterion had a value. *)
Theorem fix_agrees_on_complete_data (st : State) (fs : list Feature) :
  zipcodeData st = Some (Some fs) ->
  (forall q, In {| properties := Some q |} fs -> completeFor st q) ->
  fixedCalculateZipcodeScores st
  = orMidpoint <$> calculateZipcodeScores st (Some fs).
Proof.
  intros Hdata Hall. unfold fixedCalculateZipcodeScores. rewrite Hdata.
  rewrite calculate_unfold.
  destruct (activeFor st) as [| c ac] eqn:Hac; [now rewrite fmap_empty |].
  rewrite <- Hac. rewrite <- fix_fold_agrees; [now rewrite fmap_empty |].
  intros q Hq. apply Forall_forall. intros c' Hc'.
  apply list_elem_of_filter in Hc' as [Hen Hc'].
  apply (Hall q Hq c'); [now apply list_elem_of_In | exact Hen].
Qed.

(** The sample unit with school rating 4 and crime rate 8 under weights 1
    and 3. *)
Lemma fix_agrees_on_complete_data_witness :
  fixedCalculateZipcodeScores
    {| criteria := criteria twoCriteria; zipcodeData := Some (Some [unitSchoolCrime]) |}
  = orMidpoint <$>
      calculateZipcodeScores
        {| criteria := criteria twoCriteria; zipcodeData := Some (Some [unitSchoolCrime]) |}
        (Some [unitSchoolCrime]).
Proof.
  apply (fix_agrees_on_complete_data
           {| criteria := criteria twoCriteria;
              zipcodeData := Some (Some [unitSchoolCrime]) |} [unitSchoolCrime]).
  - reflexivity.
  - intros q [[= <-] | []] c [<- | [<- | []]] _; split; vm_compute; reflexivity.
Defined.

Lemma fix_fold_same_keys (ac : list Criterion) (fs : list Feature)
    (mf : gmap string float) (m : gmap string ZipcodeScore) (z : string) :
  (is_Some (mf !! z) <-> is_Some (m !! z)) ->
  is_Some (fold_left (fixFeatureStep ac) fs mf !! z)
  <-> is_Some (fold_left (featureStep ac) fs m !! z).
Proof.
  revert mf m. induction fs as [| f fs IH]; intros mf m H; [exact H |].
  cbn [fold_left]. apply IH. unfold fixFeatureStep, featureStep.
  destruct f as [[q |]]; cbn; [| exact H].
  destruct (zipcodeOf q) as [z' |]; [| exact H].
  destruct (decide (z' = z)) as [-> | Hne].
  - rewrite !lookup_insert_eq. split; eauto.
  - now rewrite !lookup_insert_ne by exact Hne.
Qed.

(** Whatever the data, the replacement installed by [applyFixes] scores
    exactly the zipcodes the original function scores: substituting 5 for
    missing values changes scores, never the set of scored units. *)
Theorem fix_scores_the_same_zipcodes (st : State) (fs : list Feature) (z : string) :
  zipcodeData st = Some (Some fs) ->
  is_Some (fixedCalculateZipcodeScores st !! z)
  <-> is_Some (calculateZipcodeScores st (Some fs) !! z).
Proof.
  intros Hdata. unfold fixedCalculateZipcodeScores. rewrite Hdata.
  rewrite calculate_unfold.
  destruct (activeFor st) as [| c ac] eqn:Hac.
  - rewrite !lookup_empty. split; intros [? [=]].
  - apply fix_fold_same_keys. rewrite !lookup_empty. split; intros [? [=]].
Qed.

Lemma fix_scores_the_same_zipcodes_witness :
  is_Some (fixedCalculateZipcodeScores equalWeights !! "94110")
  <-> is_Some (calculateZipcodeScores equalWeights (Some [unitCrimeMissing]) !! "94110").
Proof.
  apply (fix_scores_the_same_zipcodes equalWeights [unitCrimeMissing] "94110").
  reflexivity.
Defined.

End FixPath.

(** ** The order of the criteria and the breakdown *)

Section CriteriaOrder.
Import JS Scoring ScoringSpec Views Samples.

Abbreviation activeAmong st := (filter (fun c => enabled c = true) (criteria st)).

Lemma criterionStep_entries (p : Properties) (t t' : Totals) (c : Criterion) :
  entries t = entries t' ->
  entries (criterionStep p t c) = entries (criterionStep p t' c).
Proof.
  intros H. unfold criterionStep.
  destruct (isNullish (getProperty p (id c))); cbn [entries]; now rewrite H.
Qed.

Lemma criterionStep_entries_comm (p : Properties) (t t' : Totals) (c d : Criterion) :
  id c <> id d -> entries t = entries t' ->
  entries (criterionStep p (criterionStep p t c) d)
  = entries (criterionStep p (criterionStep p t' d) c).
Proof.
  intros Hne H. unfold criterionStep.
  destruct (isNullish (getProperty p (id c))), (isNullish (getProperty p (id d)));
    cbn [entries]; rewrite H; now apply insert_insert_ne.
Qed.

(** With distinct ids, the entries do not depend on the order of the
    criteria. *)
Lemma loop_entries_permutation (p : Properties) (cs cs' : list Criterion) :
  Permutation cs cs' -> NoDup (id <$> cs) ->
  forall t t', entries t = entries t' ->
    entries (fold_left (criterionStep p) cs t)
    = entries (fold_left (criterionStep p) cs' t').
Proof.
  induction 1 as [| c cs cs' Hperm IH | c d cs | cs cs' cs'' H1 IH1 H2 IH2];
    intros Hnd t t' Ht.
  - exact Ht.
  - cbn [fold_left]. rewrite fmap_cons in Hnd. apply NoDup_cons in Hnd as [_ Hnd].
    apply IH; [exact Hnd | now apply criterionStep_entries].
  - cbn [fold_left]. rewrite !fmap_cons in Hnd.
    apply NoDup_cons in Hnd as [Hd Hnd].
    assert (Hne : id d <> id c) by (intros Heq; apply Hd; rewrite Heq; now left).
    clear Hd Hnd.
    assert (Hsame : forall l u u', entries u = entries u' ->
              entries (fold_left (criterionStep p) l u)
              = entries (fold_left (criterionStep p) l u')).
    { clear. induction l as [| x l IH]; intros u u' H; [exact H |].
      cbn [fold_left]. apply IH. now apply criterionStep_entries. }
    apply Hsame. now apply criterionStep_entries_comm.
  - rewrite (IH1 Hnd t t Logic.eq_refl). apply IH2; [| exact Ht].
    now rewrite <- H1.
Qed.

Lemma scoreFeature_entries (ac : list Criterion) (p : Properties) :
  criteriaScores (scoreFeature ac p)
  = entries (fold_left (criterionStep p) ac noTotals).
Proof. unfold scoreFeature. now destruct (_ <? _)%float. Qed.

Lemma breakdown_fold (ac ac' : list Criterion) (fs : list Feature)
    (m m' : gmap string ZipcodeScore) (z : string) :
  (forall p, criteriaScores (scoreFeature ac p) = criteriaScores (scoreFeature ac' p)) ->
  criteriaScores <$> m !! z = criteriaScores <$> m' !! z ->
  criteriaScores <$> fold_left (featureStep ac) fs m !! z
  = criteriaScores <$> fold_left (featureStep ac') fs m' !! z.
Proof.
  intros Hsame. revert m m'. induction fs as [| f fs IH]; intros m m' H; [exact H |].
  cbn [fold_left]. apply IH. rewrite !featureStep_lookup_zip.
  destruct (decide (featureZip f = Some z)); [| exact H].
  destruct (properties f) as [p |]; cbn; [| reflexivity]. now rewrite Hsame.
Qed.

(** When the enabled criteria have pairwise distinct ids, the breakdown
    stored for every unit is the same for every order of the criteria list:
    only the sums, hence [finalScore], can feel the order. *)
Theorem breakdown_independent_of_criteria_order
    (st st' : State) (fs : list Feature) (z : string) :
  Permutation (criteria st) (criteria st') ->
  NoDup (id <$> activeAmong st) ->
  criteriaScores <$> calculateZipcodeScores st (Some fs) !! z
  = criteriaScores <$> calculateZipcodeScores st' (Some fs) !! z.
Proof.
  intros Hperm Hnd. rewrite !calculate_unfold.
  assert (Hactive : activeAmong st ≡ₚ activeAmong st') by now rewrite Hperm.
  destruct (activeAmong st) as [| c ac] eqn:Hac.
  - apply Permutation_nil in Hactive. now rewrite Hactive.
  - destruct (activeAmong st') as [| c' ac'] eqn:Hac'.
    + apply Permutation_sym, Permutation_nil in Hactive. discriminate.
    + apply breakdown_fold; [| reflexivity].
      intros p. rewrite !scoreFeature_entries.
      now apply loop_entries_permutation.
Qed.

(** The three sample criteria in both orders over the unit with ratings
    0.1, 0.2 and 0.3: the breakdowns agree although the scores differ. *)
Lemma breakdown_independent_of_criteria_order_witness :
  criteriaScores <$> calculateZipcodeScores (withCriteria criteriaForward)
                       (Some [unitTenths]) !! "94110"
  = criteriaScores <$> calculateZipcodeScores (withCriteria criteriaBackward)
                         (Some [unitTenths]) !! "94110".
Proof.
  apply (breakdown_independent_of_criteria_order (withCriteria criteriaForward)
           (withCriteria criteriaBackward) [unitTenths] "94110").
  - apply Permutation_rev.
  - vm_compute. repeat (apply NoDup_cons; split;
      [intros Hin; repeat (apply elem_of_cons in Hin as [Hin | Hin]; [discriminate |]);
       now apply not_elem_of_nil in Hin |]).
    apply NoDup_nil_2.
Defined.

End CriteriaOrder.

(** ** What the GeoJSON endpoint serves *)

Section ServedFeatures.
Import JS GeoJson Views.
Import Client.

Lemma organize_lookup (m : gmap string (gmap string Value)) (r : RatingRow)
    (z k : string) :
  organize m r !! z ≫= (.!! k) =
    if decide (zipKey (r_zip r) = z /\ rating_type r = k)
    then Some (sqlValue (rating_value r))
    else m !! z ≫= (.!! k).
Proof.
  unfold organize.
  destruct (decide (zipKey (r_zip r) = z)) as [<- | Hz].
  - rewrite lookup_insert_eq. cbn.
    destruct (decide (rating_type r = k)) as [<- | Hk].
    + rewrite decide_True by auto. apply lookup_insert_eq.
    + rewrite decide_False by tauto. rewrite lookup_insert_ne by exact Hk.
      destruct (m !! zipKey (r_zip r)); [reflexivity | apply lookup_empty].
  - rewrite decide_False by tauto. now rewrite lookup_insert_ne by exact Hz.
Qed.

(** The handler files the last row of each pair: later rows overwrite. *)
Lemma ratingsByZipcode_lookup (rows : list RatingRow) (z k : string) :
  ratingsByZipcode rows !! z ≫= (.!! k) = sqlValue <$> storedValue rows z k.
Proof.
  unfold ratingsByZipcode, storedValue.
  induction rows as [| r rows IH] using rev_ind.
  - cbn. now rewrite lookup_empty.
  - rewrite fold_left_app. cbn [fold_left]. rewrite organize_lookup, filter_app.
    destruct (decide (zipKey (r_zip r) = z /\ rating_type r = k)) as [Hr | Hr].
    + rewrite filter_cons, decide_True by exact Hr.
      rewrite filter_nil. now rewrite last_snoc.
    + rewrite filter_cons, decide_False by exact Hr.
      rewrite filter_nil, app_nil_r. exact IH.
Qed.

Lemma advertised_served (rows : list RatingRow) (z k : string) :
  advertised (default ∅ (ratingsByZipcode rows !! z)) k = servedRating rows z k.
Proof.
  rewrite advertised_spec. unfold servedRating.
  assert (Hlook : default ∅ (ratingsByZipcode rows !! z) !! k
                  = ratingsByZipcode rows !! z ≫= (.!! k)).
  { destruct (ratingsByZipcode rows !! z); [reflexivity | apply lookup_empty]. }
  rewrite Hlook, ratingsByZipcode_lookup.
  destruct (storedValue rows z k) as [[x |] |]; reflexivity.
Qed.


End ServedFeatures.

(** ** From the database to the score *)

Section EndToEnd.
Import JS Scoring ScoringSpec Views Client.

Lemma json_of_truthy_number (x : float) :
  jsonValue (if truthy (JNum x) then JNum x else JNull)
  = if usable x then JNum x else JNull.
Proof.
  unfold usable, truthy, PrimFloat.is_finite.
  destruct (PrimFloat.is_zero x) eqn:Hz, (PrimFloat.is_nan x) eqn:Hn,
           (PrimFloat.is_infinity x) eqn:Hi;
    cbv [negb orb andb jsonValue PrimFloat.is_finite];
    rewrite ?Hz, ?Hn, ?Hi; reflexivity.
Qed.

(** What the script reads under a rating kind of a served feature. *)
Lemma received_rating (rows : list GeoJson.RatingRow) (zr : GeoJson.ZipcodeRow)
    (k : string) :
  In k advertisedKinds ->
  getProperty
    (receivedProperties
       (GeoJson.properties (GeoJson.feature (GeoJson.ratingsByZipcode rows) zr))) k
  = match storedValue rows (GeoJson.zip zr) k with
    | Some (Some x) => if usable x then JNum x else JNull
    | _ => JNull
    end.
Proof.
  intros Hk.
  assert (Hget : getProperty
            (receivedProperties
               (GeoJson.properties (GeoJson.feature (GeoJson.ratingsByZipcode rows) zr))) k
          = jsonValue (servedRating rows (GeoJson.zip zr) k)).
  { rewrite <- advertised_served.
    repeat (destruct Hk as [<- | Hk]; [reflexivity |]). destruct Hk. }
  rewrite Hget. unfold servedRating.
  destruct (storedValue rows (GeoJson.zip zr) k) as [[x |] |]; try reflexivity.
  apply json_of_truthy_number.
Qed.


End EndToEnd.

(** ** The answer of the GeoJSON endpoint *)

Section ServedAnswer.
Import JS GeoJson Views Client.


End ServedAnswer.

Section ServedAnswerSample.
Import JS GeoJson Views Client Samples.


(** A rating stored as an infinity is still a number in the object handed
    to [res.json]; the response carries [null]. *)
Example infinite_rating_is_sent_as_null :
  let f := feature (ratingsByZipcode [storedRating "schoolRating" infinity])
             zipcode94110 in
  schoolRating (properties f) = JNum infinity
  /\ Scoring.getProperty (receivedProperties (properties f)) "schoolRating" = JNull.
Proof. split; vm_compute; reflexivity. Qed.

End ServedAnswerSample.

Section EndToEndSample.
Import JS Scoring ScoringSpec Views Client Samples.


(** End to end on the sample table: the school rating 7.5 is the score, and
    the crime rate stored as 0 does not count. *)
Example served_unit_score :
  let rows := [storedRating "schoolRating" 7.5; storedRating "crimeRate" 0] in
  let served := GeoJson.feature (GeoJson.ratingsByZipcode rows) zipcode94110 in
  exists r,
    calculateZipcodeScores
      (withCriteria [criterion "schoolRating" 1 false; criterion "crimeRate" 1 true])
      (Some [received served]) !! "94110" = Some r
    /\ finalScore r = 7.5%float /\ usedCriteria r = 1
    /\ criteriaScores r !! "crimeRate" = Some Missing.
Proof. eexists. split; [vm_compute; reflexivity |]. repeat split. Qed.

End EndToEndSample.

(** ** Feature validation *)

Section ValidationFacts.
Import JS Scoring Views Validation Client.

Lemma missingRatings_nil (p : Properties) :
  missingRatings p = [] <->
  forall k, In k expectedRatings -> defined (getProperty p k) = true.
Proof.
  unfold missingRatings.
  induction expectedRatings as [| k ks IH]; cbn [List.filter].
  - split; [intros _ k [] | reflexivity].
  - destruct (defined (getProperty p k)) eqn:Hk.
    + assert (Hkeep : match getProperty p k with JUndefined => true | _ => false end
                      = false) by (now destruct (getProperty p k)).
      rewrite Hkeep, IH. split; [intros H x [<- | Hx]; [exact Hk | now apply H] |].
      intros H x Hx. apply H. now right.
    + assert (Hdrop : match getProperty p k with JUndefined => true | _ => false end
                      = true) by (now destruct (getProperty p k)).
      rewrite Hdrop. split; [discriminate |]. intros H.
      specialize (H k (or_introl Logic.eq_refl)). congruence.
Qed.

(** [validateFeature] reports no issue exactly for a feature that has a
    geometry whose coordinates are an array, properties with a zipcode, and
    a value other than [undefined] under each of the four expected rating
    kinds; [null] counts as a value here, although the scoring function
    treats it as missing. *)
Theorem validateFeature_accepts (feature : option RawFeature) :
  validateFeature feature = [] <->
  exists (f : RawFeature) (g : Geometry) (p : Properties),
    feature = Some f
    /\ geometry f = Some g /\ coordinatesIsArray g = true
    /\ Validation.properties f = Some p
    /\ is_Some (zipcodeOf p)
    /\ forall k, In k expectedRatings -> defined (getProperty p k) = true.
Proof.
  unfold validateFeature. split.
  - destruct feature as [f |]; [| discriminate].
    destruct (geometry f) as [g |] eqn:Hg; [| discriminate].
    destruct (coordinatesIsArray g) eqn:Harr; [| discriminate].
    destruct (Validation.properties f) as [p |] eqn:Hp; [| discriminate].
    cbn [app]. unfold propertyIssues.
    destruct (zipcodeOf p) as [z |] eqn:Hz; [| discriminate]. cbn [app].
    destruct (missingRatings p) as [| k ks] eqn:Hm; [| discriminate].
    intros _. exists f, g, p. repeat split; eauto.
    now apply missingRatings_nil.
  - intros (f & g & p & -> & Hg & Harr & Hp & [z Hz] & Hall).
    rewrite Hg, Harr, Hp. cbn [app]. unfold propertyIssues. rewrite Hz.
    apply missingRatings_nil in Hall. now rewrite Hall.
Qed.

(** A rating property of a served feature arrives as a number or as
    [null]. *)
Lemma received_defined (rows : list GeoJson.RatingRow) (zr : GeoJson.ZipcodeRow)
    (k : string) :
  In k advertisedKinds ->
  defined (getProperty
             (receivedProperties
                (GeoJson.properties (GeoJson.feature (GeoJson.ratingsByZipcode rows) zr)))
             k) = true.
Proof.
  intros Hk. rewrite received_rating by exact Hk.
  destruct (storedValue rows (GeoJson.zip zr) k) as [[x |] |]; try reflexivity.
  now destruct (usable x).
Qed.

Lemma received_zipcode (fp : GeoJson.FeatureProperties) :
  zipcodeOf (receivedProperties fp)
  = if String.eqb (GeoJson.ZIP fp) "" then None else Some (GeoJson.ZIP fp).
Proof.
  unfold zipcodeOf, or, receivedProperties. cbn.
  destruct (String.eqb (GeoJson.ZIP fp) "") eqn:Hempty; cbn; [reflexivity |].
  now rewrite Hempty.
Qed.

(** For a feature served by the GeoJSON endpoint the rating check of
    [validateFeature] always passes, whatever the table holds and even for a
    unit without any rating: every rating property is present, as a number
    or as [null].  The only property issue it can report is a missing
    zipcode, for a row whose [zip] is the empty text; so the feature is
    valid exactly when its geometry has a coordinates array and its zipcode
    is not empty. *)
Theorem served_features_pass_the_rating_check
    (rows : list GeoJson.RatingRow) (zr : GeoJson.ZipcodeRow) (g : option Geometry) :
  let p := receivedProperties
             (GeoJson.properties (GeoJson.feature (GeoJson.ratingsByZipcode rows) zr)) in
  missingRatings p = []
  /\ propertyIssues p
     = (if String.eqb (GeoJson.zip zr) ""
        then ["Missing ZIP/ZCTA5CE10 property"%string] else [])
  /\ (validateFeature (Some {| geometry := g; Validation.properties := Some p |}) = []
      <-> (exists g', g = Some g' /\ coordinatesIsArray g' = true)
          /\ GeoJson.zip zr <> ""%string).
Proof.
  intros p.
  assert (Hmissing : missingRatings p = []).
  { apply missingRatings_nil. intros k Hk. unfold p.
    apply received_defined.
    repeat (destruct Hk as [<- | Hk]; [cbn; tauto |]). destruct Hk. }
  assert (Hzip : zipcodeOf p
                 = if String.eqb (GeoJson.zip zr) "" then None
                   else Some (GeoJson.zip zr)).
  { unfold p. now rewrite received_zipcode. }
  assert (Hissues : propertyIssues p
                    = (if String.eqb (GeoJson.zip zr) ""
                       then ["Missing ZIP/ZCTA5CE10 property"%string] else [])).
  { unfold propertyIssues. rewrite Hmissing, Hzip.
    now destruct (String.eqb (GeoJson.zip zr) ""). }
  split; [exact Hmissing |]. split; [exact Hissues |].
  unfold validateFeature. cbn [geometry Validation.properties]. rewrite Hissues.
  destruct (String.eqb_spec (GeoJson.zip zr) "") as [Hz | Hz].
  - split.
    + destruct g as [g' |]; [destruct (coordinatesIsArray g') |]; discriminate.
    + intros [_ H]. contradiction.
  - rewrite app_nil_r. split.
    + destruct g as [g' |]; [| discriminate].
      destruct (coordinatesIsArray g') eqn:Harr; [| discriminate].
      intros _. split; [eauto | exact Hz].
    + intros [(g' & -> & ->) _]. reflexivity.
Qed.

End ValidationFacts.

(** ** The last-update timestamp *)

Section TimestampFacts.
Import JS Timestamps.

(** In [src/api/server.js], a timestamp that [saveUpdateTimestamp] managed
    to write is what every later [getLastUpdateTimestamp] returns, at any
    clock reading, and reading it leaves the file alone. *)
Theorem saved_timestamp_is_read_back
    (now : string) (d d' : DataDir) (t : Value) :
  ApiServer.saveUpdateTimestamp now d = Some (t, d') ->
  t = JStr now
  /\ forall now' later' : string,
       ApiServer.getLastUpdateTimestamp now' later' d' = (JStr now, d').
Proof.
  unfold ApiServer.saveUpdateTimestamp.
  destruct d; [discriminate | |]; intros [= <- <-]; split; reflexivity.
Qed.

Lemma saved_timestamp_is_read_back_witness :
  JStr "2025-03-01T10:00:00.000Z" = JStr "2025-03-01T10:00:00.000Z"
  /\ forall now' later' : string,
       ApiServer.getLastUpdateTimestamp now' later' (written "2025-03-01T10:00:00.000Z")
       = (JStr "2025-03-01T10:00:00.000Z", written "2025-03-01T10:00:00.000Z").
Proof.
  apply (saved_timestamp_is_read_back "2025-03-01T10:00:00.000Z" NoFile).
  reflexivity.
Defined.

(** In the later server, [getLastUpdateTimestamp] settles after one call:
    whatever the state of the directory and the file, the second call
    returns what the first returned and changes nothing, at any clock
    reading; and the first call leaves a file that holds what it
    returned. *)
Theorem last_update_is_stable_after_first_read (now now' : string) (d : DataDir) :
  let '(t, d1) := HousingApi.getLastUpdateTimestamp now d in
  HousingApi.getLastUpdateTimestamp now' d1 = (t, d1)
  /\ d1 = File (ParsesTo t).
Proof.
  destruct d as [| | [| | v]]; cbn; split; reflexivity.
Qed.

(** The two servers differ only where [src/api/server.js] falls back to
    the clock.  With the directory present and the file absent or holding a
    JSON value other than [null], both versions of [getLastUpdateTimestamp]
    return the same timestamp and leave the same file.  In the other states
    (no directory, or a file that does not parse or parses to [null]) the
    first version answers with a clock reading and leaves the state as it
    found it, so that it answers with a new reading on every call, while the
    later version writes the file anew. *)
Theorem servers_agree_unless_file_is_broken (now later : string) (d : DataDir) :
  (d = NoFile \/ (exists v, d = File (ParsesTo v)) ->
   ApiServer.getLastUpdateTimestamp now later d
   = HousingApi.getLastUpdateTimestamp now d)
  /\ (d = NoDirectory \/ d = File Unparseable \/ d = File ParsesToNull ->
      snd (ApiServer.getLastUpdateTimestamp now later d) = d
      /\ (fst (ApiServer.getLastUpdateTimestamp now later d) = JStr now
          \/ fst (ApiServer.getLastUpdateTimestamp now later d) = JStr later)
      /\ HousingApi.getLastUpdateTimestamp now d = (JStr now, written now)).
Proof.
  split.
  - intros [-> | [v ->]]; reflexivity.
  - intros [-> | [-> | ->]]; cbn; auto.
Qed.

(** An update request changes the timestamp file only when it answers with
    success, and the timestamp of a successful answer is the one that
    [getLastUpdateTimestamp] returns from then on.  This holds for the
    handlers of both servers. *)
Theorem update_changes_timestamp_only_on_success
    (scriptExists failed : bool) (now : string) (d : DataDir) :
  (let '(r, d') := ApiServer.updateData failed now d in
   match r with
   | Success t => failed = false /\ t = JStr now
                  /\ forall n l, ApiServer.getLastUpdateTimestamp n l d' = (t, d')
   | _ => d' = d
   end)
  /\ (let '(r, d') := HousingApi.updateData scriptExists failed now d in
      match r with
      | Success t => scriptExists = true /\ failed = false /\ t = JStr now
                     /\ forall n, HousingApi.getLastUpdateTimestamp n d' = (t, d')
      | _ => d' = d
      end).
Proof.
  split.
  - unfold ApiServer.updateData. destruct failed; [reflexivity |].
    destruct d; cbn; auto.
  - unfold HousingApi.updateData. destruct scriptExists; [| reflexivity].
    destruct failed; [reflexivity |]. cbn. auto.
Qed.

End TimestampFacts.

(** ** Waiting for a container *)

Section DeployFacts.
Import Deploy Views.

Lemma waitFrom_code (health : nat -> Health) (remaining attempt : nat) :
  fst (waitFrom health attempt remaining) = 1
  <-> exists i, attempt <= i < attempt + remaining
                /\ health i = NotFound
                /\ forall j, attempt <= j < i -> ~ settles (health j).
Proof.
  revert attempt. induction remaining as [| rest IH]; intros attempt.
  - cbn. split; [discriminate | intros (i & Hi & _); lia].
  - assert (Hnext : ~ settles (health attempt) ->
              ((exists i, S attempt <= i < S attempt + rest
                          /\ health i = NotFound
                          /\ forall j, S attempt <= j < i -> ~ settles (health j))
               <-> exists i, attempt <= i < attempt + S rest
                             /\ health i = NotFound
                             /\ forall j, attempt <= j < i -> ~ settles (health j))).
    { intros Hhere. split.
      - intros (i & Hi & Hnf & Hbefore). exists i. split; [lia |].
        split; [exact Hnf |]. intros j Hj.
        destruct (Nat.eq_dec j attempt) as [-> | Hne]; [exact Hhere |].
        apply Hbefore. lia.
      - intros (i & Hi & Hnf & Hbefore).
        destruct (Nat.eq_dec i attempt) as [-> | Hne].
        + exfalso. apply Hhere. now right.
        + exists i. split; [lia |]. split; [exact Hnf |].
          intros j Hj. apply Hbefore. lia. }
    assert (Hstop : settles (health attempt) ->
              ((exists i, attempt <= i < attempt + S rest
                          /\ health i = NotFound
                          /\ forall j, attempt <= j < i -> ~ settles (health j))
               <-> health attempt = NotFound)).
    { intros Hhere. split.
      - intros (i & Hi & Hnf & Hbefore).
        destruct (Nat.eq_dec i attempt) as [-> | Hne]; [exact Hnf |].
        exfalso. apply (Hbefore attempt); [lia | exact Hhere].
      - intros Hnf. exists attempt. split; [lia |]. split; [exact Hnf |].
        intros j Hj. lia. }
    cbn [waitFrom]. destruct (health attempt) eqn:Hh.
    + rewrite Hstop by now left. cbn. split; discriminate.
    + assert (Hrun : ~ settles Running) by (intros [H | H]; discriminate).
      rewrite <- (Hnext Hrun), <- IH.
      destruct rest as [| rest'].
      * cbn. reflexivity.
      * now destruct (waitFrom health (S attempt) (S rest')).
    + rewrite Hstop by now right. cbn. tauto.
    + assert (Hother : ~ settles Other) by (intros [H | H]; discriminate).
      rewrite <- (Hnext Hother), <- IH.
      now destruct (waitFrom health (S attempt) rest).
Qed.

Lemma waitFrom_bounds (health : nat -> Health) (remaining attempt : nat) :
  fst (waitFrom health attempt remaining) <= 1
  /\ snd (waitFrom health attempt remaining) <= remaining.
Proof.
  revert attempt. induction remaining as [| rest IH]; intros attempt; cbn [waitFrom].
  - cbn. lia.
  - destruct (health attempt); cbn; try lia.
    + destruct rest as [| rest']; [cbn; lia |].
      specialize (IH (S attempt)).
      destruct (waitFrom health (S attempt) (S rest')). cbn in *. lia.
    + specialize (IH (S attempt)).
      destruct (waitFrom health (S attempt) rest). cbn in *. lia.
Qed.

(** [wait_for_health] fails (returns 1) exactly when some poll within the
    allowed attempts reports the container as not found before any poll
    reported it healthy; in every other case, also when the container never
    becomes healthy, it returns 0.  It sleeps at most [max_attempts]
    times. *)
Theorem wait_for_health_fails_only_when_not_found
    (health : nat -> Health) (max_attempts : nat) :
  (fst (wait_for_health health max_attempts) = 1
   <-> exists i, 1 <= i <= max_attempts
                 /\ health i = NotFound
                 /\ forall j, 1 <= j < i -> health j <> Healthy /\ health j <> NotFound)
  /\ (fst (wait_for_health health max_attempts) = 0
      \/ fst (wait_for_health health max_attempts) = 1)
  /\ snd (wait_for_health health max_attempts) <= max_attempts.
Proof.
  unfold wait_for_health. split; [| split].
  - rewrite waitFrom_code. split.
    + intros (i & Hi & Hnf & Hbefore). exists i. split; [lia |].
      split; [exact Hnf |]. intros j Hj. specialize (Hbefore j Hj).
      unfold settles in Hbefore. tauto.
    + intros (i & Hi & Hnf & Hbefore). exists i. split; [lia |].
      split; [exact Hnf |]. intros j Hj Hs. destruct (Hbefore j Hj) as [H1 H2].
      destruct Hs; contradiction.
  - pose proof (waitFrom_bounds health max_attempts 1) as [H _]. lia.
  - apply waitFrom_bounds.
Qed.

(** A container that stays in a starting state for all six attempts is
    waited for six times and then accepted. *)
Example unhealthy_container_is_accepted :
  wait_for_health (fun _ => Other) 6 = (0, 6)
  /\ wait_for_health (fun _ => Running) 6 = (0, 5)
  /\ wait_for_health (fun i => if Nat.eqb i 3 then NotFound else Other) 6 = (1, 2).
Proof. repeat split. Qed.

End DeployFacts.

(** ** Inserts into [zipcode_ratings] *)

Section InsertFacts.
Import RatingStore Samples Views.

(** What the table keeps of a row: everything but the two [REAL] values,
    which are rounded. *)
Lemma stored_inv (r r' : Row) :
  stored r = Some r' ->
  id r' = id r /\ zip r' = zip r /\ rating_type r' = rating_type r
  /\ realColumn (rating_value r) = Some (rating_value r')
  /\ realColumn (confidence r) = Some (confidence r').
Proof.
  unfold stored.
  destruct (realColumn (rating_value r)) as [value |]; [| discriminate].
  destruct (realColumn (confidence r)) as [conf |]; [| discriminate].
  intros [= <-]. cbn. auto.
Qed.

Lemma realColumn_single (o o' : option float) (x : float) :
  realColumn o = Some o' -> o' = Some x -> singlePrecision x.
Proof.
  destruct o as [f |]; cbn.
  - destruct (real f) as [y |] eqn:Hf; cbn; [| discriminate].
    intros [= <-] [= <-]. now exists f.
  - intros [= <-]. discriminate.
Qed.

(** What an accepted INSERT has passed. *)
Lemma insertRow_inv (zs : list string) (r : Row) (rows rows' : list Row) :
  insertRow zs r rows = Some rows' ->
  exists r', stored r = Some r' /\ rows' = rows ++ [r']
    /\ integer (id r) = true /\ (id r ∉ id <$> rows) /\ references zs r
    /\ insertUnderIndex r' rows = Some rows'.
Proof.
  unfold insertRow.
  destruct (integer (id r)) eqn:Hint; [| discriminate].
  destruct (bool_decide (id r ∉ id <$> rows)) eqn:Hid; [| discriminate].
  destruct (bool_decide (references zs r)) eqn:Hfk; [| discriminate].
  apply bool_decide_eq_true_1 in Hid, Hfk.
  destruct (stored r) as [r' |]; [| discriminate]. cbn.
  intros Hins. exists r'. repeat split; try assumption.
  unfold insertUnderIndex in Hins. destruct (indexKey r') as [key |].
  - destruct (decide (key ∈ omap indexKey rows)); [discriminate |].
    now injection Hins as <-.
  - now injection Hins as <-.
Qed.

(** An accepted INSERT keeps the four constraints of the table. *)
Lemma insertRow_keeps_constraints (zs : list string) (r : Row) (rows rows' : list Row) :
  insertRow zs r rows = Some rows' ->
  idx_zipcode_ratings_zip_type rows /\ primaryKey rows
  /\ Forall (references zs) rows /\ Forall columnTypes rows ->
  idx_zipcode_ratings_zip_type rows' /\ primaryKey rows'
  /\ Forall (references zs) rows' /\ Forall columnTypes rows'.
Proof.
  intros Hins (Hidx & Hpk & Hfk & Hty).
  apply insertRow_inv in Hins as (r' & Hst & -> & Hint & Hid & Href & Hins).
  apply stored_inv in Hst as (Eid & Ezip & _ & Evalue & Econf).
  split; [now apply (insertUnderIndex_keeps_index r' rows) |].
  split.
  { unfold primaryKey in *. rewrite fmap_app. apply NoDup_app.
    split; [exact Hpk |]. split; [| apply NoDup_singleton].
    intros x Hx Hx'. cbn in Hx'. apply list_elem_of_singleton in Hx'. subst x.
    rewrite Eid in Hx. contradiction. }
  split.
  { apply Forall_app. split; [exact Hfk |]. apply Forall_singleton.
    unfold references in *. now rewrite Ezip. }
  apply Forall_app. split; [exact Hty |]. apply Forall_singleton.
  unfold columnTypes. rewrite Eid. split; [exact Hint |].
  split; intros x Hx; [now apply (realColumn_single _ _ x Evalue)
                      | now apply (realColumn_single _ _ x Econf)].
Qed.

Lemma refused_run (zs : list string) (rs : list Row) :
  fold_left (fun acc r => acc ≫= insertRow zs r) rs None = None.
Proof. induction rs as [| r rs IH]; [reflexivity | exact IH]. Qed.

(** A run of INSERTs the database accepts is a run the unique index
    accepts, of the rows as the table keeps them. *)
Lemma accepted_run_under_index (zs : list string) (rs table table' : list Row) :
  insertStatements zs rs table = Some table' ->
  exists rs', insertAll rs' table = Some table' /\ length rs' = length rs.
Proof.
  unfold insertStatements, insertAll. revert table.
  induction rs as [| r rs IH]; intros table; cbn [fold_left].
  - intros [= <-]. now exists [].
  - cbn. destruct (insertRow zs r table) as [t1 |] eqn:Hins.
    + intros Hrun. apply IH in Hrun as (rs' & Hrun & Hlen).
      apply insertRow_inv in Hins as (r' & _ & _ & _ & _ & _ & Hins).
      exists (r' :: rs'). cbn [fold_left length]. cbn. rewrite Hins.
      split; [exact Hrun | now rewrite Hlen].
    + now rewrite refused_run.
Qed.

(** Whatever INSERT statements are run against an empty [zipcode_ratings]
    table, if the database accepts them all then the table holds one row
    per statement and satisfies its constraints: at most one row for every
    zipcode and rating kind, no id twice, every id an [INTEGER], every zip
    that is not NULL a key of [zipcodes], and every rating value and
    confidence a single-precision number. *)
Theorem accepted_inserts_keep_the_constraints
    (zs : list string) (rs table : list Row) :
  insertStatements zs rs [] = Some table ->
  length table = length rs
  /\ idx_zipcode_ratings_zip_type table
  /\ (forall z k, length (observations table z k) <= 1)
  /\ primaryKey table
  /\ Forall (references zs) table
  /\ Forall columnTypes table.
Proof.
  intros Hrun.
  assert (Hgen : forall rs start table',
             insertStatements zs rs start = Some table' ->
             idx_zipcode_ratings_zip_type start /\ primaryKey start
             /\ Forall (references zs) start /\ Forall columnTypes start ->
             length table' = length start + length rs
             /\ idx_zipcode_ratings_zip_type table' /\ primaryKey table'
             /\ Forall (references zs) table' /\ Forall columnTypes table').
  { clear. unfold insertStatements.
    induction rs as [| r rs IH]; intros start table'; cbn [fold_left].
    - intros [= <-] H. split; [cbn; lia | exact H].
    - cbn. destruct (insertRow zs r start) as [t1 |] eqn:Hins;
        [| now rewrite refused_run].
      intros Hrun Hstart.
      pose proof (insertRow_keeps_constraints zs r start t1 Hins Hstart) as Ht1.
      destruct (IH t1 table' Hrun Ht1) as (Hlen & Hrest).
      split; [| exact Hrest].
      apply insertRow_inv in Hins as (r' & _ & -> & _).
      rewrite length_app in Hlen. cbn [length] in *. lia. }
  destruct (Hgen rs [] table Hrun) as (Hlen & Hidx & Hpk & Hfk & Hty).
  { split; [apply NoDup_nil_2 |]. split; [apply NoDup_nil_2 |].
    split; apply Forall_nil_2. }
  split; [exact Hlen |]. split; [exact Hidx |].
  split; [intros z k; now apply index_at_most_one |].
  auto.
Qed.

(** Two ratings of unit 94110, the first with a value that is rounded. *)
Lemma accepted_inserts_keep_the_constraints_witness :
  let table := [fresh 1 "94110" "schoolRating" 16777216 0.5 "cde" 1700000000;
                fresh 2 "94110" "crimeRate" 3 0.5 "sfpd" 1700000000] in
  length table = 2
  /\ idx_zipcode_ratings_zip_type table
  /\ (forall z k, length (observations table z k) <= 1)
  /\ primaryKey table
  /\ Forall (references ["94110"]%string) table
  /\ Forall columnTypes table.
Proof.
  cbn zeta.
  apply (accepted_inserts_keep_the_constraints ["94110"]%string
           [fresh 1 "94110" "schoolRating" 16777217 0.5 "cde" 1700000000;
            fresh 2 "94110" "crimeRate" 3 0.5 "sfpd" 1700000000]).
  vm_compute. reflexivity.
Defined.

Lemma insertAll_keeps_index (rs table table' : list Row) :
  idx_zipcode_ratings_zip_type table -> insertAll rs table = Some table' ->
  idx_zipcode_ratings_zip_type table'.
Proof.
  unfold insertAll. revert table.
  induction rs as [| r rs IH]; intros table Hidx; cbn [fold_left].
  - now intros [= <-].
  - cbn. destruct (insertUnderIndex r table) as [t1 |] eqn:Hins.
    + apply IH. now apply (insertUnderIndex_keeps_index r table).
    + intros H. exfalso. revert H. clear. induction rs as [| x rs IH]; cbn;
        [discriminate | exact IH].
Qed.

(** However many rows are inserted into an empty [zipcode_ratings] table,
    and in whatever order, a table that accepted them all holds at most one
    row for every zipcode and rating kind. *)
Theorem inserts_keep_one_row_per_pair (rs table : list Row) :
  insertAll rs [] = Some table ->
  idx_zipcode_ratings_zip_type table
  /\ forall z k, length (observations table z k) <= 1.
Proof.
  intros Hall.
  assert (Hidx : idx_zipcode_ratings_zip_type table).
  { apply (insertAll_keeps_index rs [] table); [apply NoDup_nil_2 | exact Hall]. }
  split; [exact Hidx |]. intros z k. now apply index_at_most_one.
Qed.

(** Two ratings of unit 94110 inserted one after the other. *)
Lemma inserts_keep_one_row_per_pair_witness :
  let table := [fresh 1 "94110" "schoolRating" 6 0.5 "cde" 1700000000;
                fresh 2 "94110" "crimeRate" 3 0.5 "sfpd" 1700000000] in
  idx_zipcode_ratings_zip_type table
  /\ forall z k, length (observations table z k) <= 1.
Proof.
  cbn zeta.
  apply (inserts_keep_one_row_per_pair
           [fresh 1 "94110" "schoolRating" 6 0.5 "cde" 1700000000;
            fresh 2 "94110" "crimeRate" 3 0.5 "sfpd" 1700000000]).
  vm_compute. reflexivity.
Defined.

(** A second row for the same pair is refused, and so are a row for a unit
    that [zipcodes] does not hold and a row under an id that is taken. *)
Example duplicate_rating_is_refused :
  insertRow (zipcodes storeWithSchool)
    (fresh 2 "94110" "schoolRating" 8.5 0.75 "greatschools" 1700003600)
    (rows storeWithSchool) = None
  /\ insertRow (zipcodes storeWithSchool)
       (fresh 2 "99999" "crimeRate" 3 0.5 "sfpd" 1700003600)
       (rows storeWithSchool) = None
  /\ insertRow (zipcodes storeWithSchool)
       (fresh 1 "94110" "crimeRate" 3 0.5 "sfpd" 1700003600)
       (rows storeWithSchool) = None
  /\ is_Some (insertRow (zipcodes storeWithSchool)
                (fresh 2 "94110" "crimeRate" 3 0.5 "sfpd" 1700003600)
                (rows storeWithSchool)).
Proof. repeat split; vm_compute; eauto. Qed.

End InsertFacts.

(** ** A value that does not read as a number *)

Section NotANumber.
Import JS Scoring ScoringSpec Views.

Lemma nan_spec (x : float) : PrimFloat.is_nan x = true <-> Prim2SF x = S754_nan.
Proof.
  split.
  - intros H. unfold Prim2SF. now rewrite H.
  - intros H. rewrite <- (SF2Prim_Prim2SF x), H. reflexivity.
Qed.

Lemma nan_add_l (a b : float) :
  PrimFloat.is_nan a = true -> PrimFloat.is_nan (a + b) = true.
Proof.
  intros H. apply nan_spec. apply nan_spec in H. rewrite add_spec, H. reflexivity.
Qed.

Lemma nan_add_r (a b : float) :
  PrimFloat.is_nan b = true -> PrimFloat.is_nan (a + b) = true.
Proof.
  intros H. apply nan_spec. apply nan_spec in H. rewrite add_spec, H.
  now destruct (Prim2SF a).
Qed.

Lemma nan_sub_r (a b : float) :
  PrimFloat.is_nan b = true -> PrimFloat.is_nan (a - b) = true.
Proof.
  intros H. apply nan_spec. apply nan_spec in H. rewrite sub_spec, H.
  now destruct (Prim2SF a).
Qed.

Lemma nan_mul_l (a b : float) :
  PrimFloat.is_nan a = true -> PrimFloat.is_nan (a * b) = true.
Proof.
  intros H. apply nan_spec. apply nan_spec in H. rewrite mul_spec, H. reflexivity.
Qed.

Lemma nan_div_l (a b : float) :
  PrimFloat.is_nan a = true -> PrimFloat.is_nan (a / b) = true.
Proof.
  intros H. apply nan_spec. apply nan_spec in H. rewrite div_spec, H. reflexivity.
Qed.

Variable p : Properties.

(** Once the running sum is NaN it stays NaN. *)
Lemma loop_keeps_nan (cs : list Criterion) (t : Totals) :
  PrimFloat.is_nan (totalScore t) = true ->
  PrimFloat.is_nan (totalScore (fold_left (criterionStep p) cs t)) = true.
Proof.
  revert t. induction cs as [| c cs IH]; intros t H; [exact H |].
  cbn [fold_left]. apply IH. unfold criterionStep.
  destruct (isNullish (getProperty p (id c))); cbn [totalScore]; [exact H |].
  now apply nan_add_l.
Qed.

(** A criterion whose value is present but reads as NaN turns the sum into
    NaN. *)
Lemma loop_poisoned (cs : list Criterion) (t : Totals) (c : Criterion) :
  In c cs -> hasObservation p c ->
  PrimFloat.is_nan (parseFloat (getProperty p (id c))) = true ->
  PrimFloat.is_nan (totalScore (fold_left (criterionStep p) cs t)) = true.
Proof.
  intros Hin Hobs Hnan. apply in_split in Hin as (l1 & l2 & ->).
  rewrite fold_left_app. cbn [fold_left]. apply loop_keeps_nan.
  rewrite (criterionStep_present p _ c Hobs). cbn [totalScore].
  apply nan_add_r, nan_mul_l. unfold contributedScore.
  destruct (invert c); [now apply nan_sub_r | exact Hnan].
Qed.

End NotANumber.

Section NotANumberResult.
Import JS Scoring ScoringSpec Views Samples.

(** One value that is present but does not read as a number spoils the
    whole score of the unit: whatever the other criteria and values, the
    unit's [finalScore] is NaN as soon as the weight sum is positive (the
    result carries no error then), and otherwise the result is the one with
    the error message and score 0.  The remaining criteria never yield an
    average of their own. *)
Theorem unreadable_value_spoils_the_score
    (st : State) (q : Properties) (z : string) (c : Criterion) :
  zipcodeOf q = Some z ->
  In c (criteria st) -> enabled c = true ->
  hasObservation q c ->
  PrimFloat.is_nan (parseFloat (getProperty q (id c))) = true ->
  exists r : ZipcodeScore,
    calculateZipcodeScores st (Some [ {| properties := Some q |} ]) !! z = Some r
    /\ ((error r = None /\ PrimFloat.is_nan (finalScore r) = true)
        \/ (is_Some (error r) /\ finalScore r = 0%float /\ usedCriteria r = 0)).
Proof.
  intros Hz Hin Hen Hobs Hnan. rewrite calculate_unfold.
  assert (Hac : In c (filter (fun c => enabled c = true) (criteria st))).
  { apply list_elem_of_In, list_elem_of_filter. split; [exact Hen |].
    now apply list_elem_of_In. }
  destruct (filter (fun c => enabled c = true) (criteria st)) as [| c0 ac] eqn:Eac;
    [destruct Hac |].
  cbn [fold_left]. unfold featureStep. cbn [properties]. rewrite Hz.
  rewrite lookup_insert_eq. eexists. split; [reflexivity |].
  unfold scoreFeature.
  pose proof (loop_poisoned q (c0 :: ac) noTotals c Hac Hobs Hnan) as Hsum.
  destruct (0 <? totalWeight (fold_left (criterionStep q) (c0 :: ac) noTotals))%float.
  - left. cbn [error finalScore]. split; [reflexivity | now apply nan_div_l].
  - right. cbn [error finalScore usedCriteria]. repeat split. eauto.
Qed.

(** The unit whose school rating is the text [N/A]. *)
Lemma unreadable_value_spoils_the_score_witness :
  exists r : ZipcodeScore,
    calculateZipcodeScores schoolThenCrime
      (Some [ {| properties := Some propsSchoolText |} ]) !! "94110" = Some r
    /\ ((error r = None /\ PrimFloat.is_nan (finalScore r) = true)
        \/ (is_Some (error r) /\ finalScore r = 0%float /\ usedCriteria r = 0)).
Proof.
  apply (unreadable_value_spoils_the_score schoolThenCrime propsSchoolText "94110"
           (criterion "schoolRating" 1 false)).
  - reflexivity.
  - left. reflexivity.
  - reflexivity.
  - reflexivity.
  - vm_compute. reflexivity.
Defined.

End NotANumberResult.
